(** * EA Forum cluster summaries: aggregator and dashboard

    A shallow embedding of [summarize_cluster_scores.py] (the aggregator
    that queries the [fellowship_mvp] table and writes the two CSV
    artifacts) and of the data paths of [cluster_dashboard_app.py] (the
    Streamlit viewer), followed by the properties of the specification
    that concern them.

    Conventions of the embedding:
    - Python [int] is [Z]; SQL [numeric] values are exact rationals [Q];
      a timestamp is its position on the time line, a [Z].
    - SQL NULL and Python [None] are [None].
    - The database is a value: the catalogue that
      [information_schema.columns] shows and the rows of [fellowship_mvp].
      A statement that names a column the catalogue lacks raises.
    - The result of an [ORDER BY] is produced by a merge sort on the
      ordering keys; how the server orders rows that agree on all keys is
      its own choice and nothing below depends on it.
    - Standard deviations are kept exactly, as the square root of a
      rational; [float(...)] conversions are not applied. Where pandas
      casts a float64 column to its nullable integer type, the cast is
      decided on the nearest double of the exact value.
    - Text is ASCII: [str.strip] sees the ASCII white space only. What
      [int] accepts depends on the interpreter (its Unicode tables for
      digits and white space, its limit on the number of digits): the
      parsing of the configured levels takes [int] as a parameter, and
      [Py.int] is the reading of ASCII text without a digit limit. *)

From Stdlib Require Import Ascii String QArith.
From Stdlib Require OrderedTypeEx.
From stdpp Require Import base option list sorting strings gmap pretty.

Open Scope Z_scope.

(** ** Python text helpers *)

Module Py.

(** [str.isspace] on one ASCII character: TAB, LF, VT, FF, CR, the four
    separators FS..US and the blank. *)
Definition is_space (c : ascii) : bool :=
  let n := nat_of_ascii c in
  ((9 <=? n) && (n <=? 13) || (28 <=? n) && (n <=? 32))%nat.

Fixpoint lstrip (s : string) : string :=
  match s with
  | String c s' => if is_space c then lstrip s' else s
  | EmptyString => EmptyString
  end.

(** Drops trailing white space: a character is kept when something
    remains after it once the rest has been stripped. *)
Fixpoint rstrip (s : string) : string :=
  match s with
  | String c s' =>
      match rstrip s' with
      | EmptyString => if is_space c then EmptyString else String c EmptyString
      | r => String c r
      end
  | EmptyString => EmptyString
  end.

(** [s.strip()] *)
Definition strip (s : string) : string := rstrip (lstrip s).

(** Truth value of a string: non-empty. *)
Definition truthy (s : string) : bool :=
  match s with EmptyString => false | _ => true end.

(** [s.split(sep)] for a one-character separator: always at least one
    piece, empty pieces kept. *)
Fixpoint split_go (sep : ascii) (cur : string) (s : string) : list string :=
  match s with
  | EmptyString => [String.rev cur]
  | String c s' =>
      if Ascii.eqb c sep then String.rev cur :: split_go sep EmptyString s'
      else split_go sep (String c cur) s'
  end.

Definition split (sep : ascii) (s : string) : list string :=
  split_go sep EmptyString s.

(** [c * n] for a one-character string [c]. *)
Fixpoint repeat (c : ascii) (n : nat) : string :=
  match n with
  | O => EmptyString
  | S n' => String c (repeat c n')
  end.

Definition digit_value (c : ascii) : option Z :=
  let n := nat_of_ascii c in
  if ((48 <=? n) && (n <=? 57))%nat then Some (Z.of_nat n - 48) else None.

(** The digits of an integer literal, most significant first; a single
    underscore is allowed between two digits. [acc] is the value read so
    far and [after_digit] tells whether the previous character was a
    digit (the literal must also end in one). *)
Fixpoint int_digits (acc : Z) (after_digit : bool) (s : string) : option Z :=
  match s with
  | EmptyString => if after_digit then Some acc else None
  | String c s' =>
      match digit_value c with
      | Some d => int_digits (10 * acc + d) true s'
      | None =>
          if Ascii.eqb c "_" && after_digit then int_digits acc false s'
          else None
      end
  end.

(** The white space that [int] skips around a literal: TAB, LF, VT, FF,
    CR and the blank. The separators FS..US, which [str.strip] removes,
    are not among them. *)
Definition is_int_space (c : ascii) : bool :=
  let n := nat_of_ascii c in
  ((9 <=? n) && (n <=? 13) || (n =? 32))%nat.

Fixpoint skip_leading (sp : ascii → bool) (s : string) : string :=
  match s with
  | String c s' => if sp c then skip_leading sp s' else s
  | EmptyString => EmptyString
  end.

Fixpoint skip_trailing (sp : ascii → bool) (s : string) : string :=
  match s with
  | String c s' =>
      match skip_trailing sp s' with
      | EmptyString => if sp c then EmptyString else String c EmptyString
      | r => String c r
      end
  | EmptyString => EmptyString
  end.

(** [int(s)] in base ten on ASCII text: surrounding white space, an
    optional sign, digits. [None] stands for [ValueError]. The limit on
    the number of digits (4300 by default in recent interpreters, absent
    in older ones and when switched off) is not applied. *)
Definition int (s : string) : option Z :=
  match skip_trailing is_int_space (skip_leading is_int_space s) with
  | String "-" s' => Z.opp <$> int_digits 0 false s'
  | String "+" s' => int_digits 0 false s'
  | s' => int_digits 0 false s'
  end.

End Py.

(** ** The data source *)

(** One row of [fellowship_mvp]. The per-level columns [ea_cluster_{L}]
    and [ea_cluster_{L}_name] are finite maps from the level [L]; a level
    without an entry holds NULL. *)
Record Post := {
  post_id : string;
  title : option string;
  author_display_name : option string;
  posted_at : option Z;
  base_score : option Q;
  score : option Q;
  ea_classification : option string;
  ea_cluster : gmap Z Z;
  ea_cluster_name : gmap Z string;
}.

(** What a connection gives access to: [catalog] lists the
    (table_name, column_name) pairs of [information_schema.columns], and
    [collation a b] tells whether the text [a] sorts before or with [b]
    under the collation of the server, which decides every
    [ORDER BY] on a text column. *)
Record Conn := {
  catalog : list (string * string);
  fellowship_mvp : list Post;
  collation : string → string → bool;
}.

Inductive exn :=
| OperationalError            (* psycopg2.connect could not connect *)
| UndefinedColumn (col : string)
| ValueError
| TypeError
| EmptyDataError              (* pandas.read_csv on a file without bytes *)
| StreamlitAPIException.

Inductive result (A : Type) :=
| Ok (a : A)
| Raise (e : exn).
Arguments Ok {A} a.
Arguments Raise {A} e.

Definition id_col (level : Z) : string := "ea_cluster_" +:+ pretty level.
Definition name_col (level : Z) : string := id_col level +:+ "_name".

Definition column_exists (conn : Conn) (table column : string) : bool :=
  bool_decide ((table, column) ∈ catalog conn).

(** Running a statement over [fellowship_mvp] that mentions [cols]: the
    first column that does not exist makes it raise. *)
Fixpoint check_columns (conn : Conn) (cols : list string) : result unit :=
  match cols with
  | [] => Ok ()
  | c :: cols' =>
      if column_exists conn "fellowship_mvp" c then check_columns conn cols'
      else Raise (UndefinedColumn c)
  end.

(** ** SQL aggregates *)

(** The square root of a non-negative rational, kept symbolically. *)
Record root := SqrtOf { radicand : Q }.

Fixpoint sum_Z (l : list Z) : Z :=
  match l with
  | [] => 0
  | x :: l' => x + sum_Z l'
  end.

Fixpoint sum_Q (l : list Q) : Q :=
  match l with
  | [] => 0%Q
  | x :: l' => (x + sum_Q l')%Q
  end.

(** [COUNT( * )::int]; the range of a four-byte integer is not
    modelled. *)
Definition sql_count {A} (rows : list A) : Z := Z.of_nat (length rows).

(** The posts that carry a classification label; a NULL classification
    matches no label. *)
Definition label_count (label : string) (rows : list Post) : Z :=
  sum_Z ((λ p, if bool_decide (ea_classification p = Some label)
               then 1 else 0) <$> rows).

(** [SUM(CASE WHEN ea_classification = label THEN 1 ELSE 0 END)::int]:
    NULL over no rows. *)
Definition sql_sum_case (label : string) (rows : list Post) : option Z :=
  match rows with
  | [] => None
  | _ => Some (label_count label rows)
  end.

(** [AVG(x)]: NULL inputs are ignored; NULL when nothing is left. *)
Definition sql_avg (xs : list (option Q)) : option Q :=
  match omap id xs with
  | [] => None
  | ys => Some (Qred (sum_Q ys / inject_Z (Z.of_nat (length ys))))
  end.

(** [STDDEV(x)], the sample standard deviation: NULL unless at least two
    inputs are non-NULL. *)
Definition sql_stddev (xs : list (option Q)) : option root :=
  match omap id xs with
  | [] | [_] => None
  | ys =>
      let n := inject_Z (Z.of_nat (length ys)) in
      let mean := (sum_Q ys / n)%Q in
      let sq := sum_Q ((λ y, (y - mean) * (y - mean))%Q <$> ys) in
      Some (SqrtOf (Qred (sq / (n - 1))))
  end.

(** [GROUP BY]: one group per distinct key, in order of first
    appearance, holding the rows with that key. *)
Definition group_by {A K} `{EqDecision K} (key : A → K) (rows : list A)
    : list (K * list A) :=
  (λ k, (k, filter (λ r, key r = k) rows)) <$> remove_dups (key <$> rows).

(** ** Rows of the two artifacts *)

Module LevelRow.
Record t := {
  level : Z;
  post_count : Z;
  meta_posts : option Z;
  proper_posts : option Z;
  avg_base_score : option Q;
  stddev_base_score : option root;
  avg_score : option Q;
  stddev_score : option root;
}.
End LevelRow.

Module ClusterRow.
Record t := {
  level : Z;
  cluster_id : Z;
  cluster_name : string;
  post_count : Z;
  meta_posts : option Z;
  proper_posts : option Z;
  avg_base_score : option Q;
  stddev_base_score : option root;
  avg_score : option Q;
  stddev_score : option root;
}.
End ClusterRow.

(** A row of the console summary query of [summarize_level]. *)
Module SummaryRow.
Record t := {
  cluster_id : Z;
  cluster_name : string;
  post_count : Z;
  avg_base_score : option Q;
  stddev_base_score : option root;
}.
End SummaryRow.

(** ** The queries *)

(** [WHERE ea_cluster_{level} IS NOT NULL], each row paired with its
    cluster id. *)
Definition assigned (level : Z) (posts : list Post) : list (Z * Post) :=
  omap (λ p, (λ c, (c, p)) <$> ea_cluster p !! level) posts.

(** The [cluster_name] select expression:
    [COALESCE(name_col, 'Cluster ' || id_col::text)] when the name column
    exists, ['Cluster ' || id_col::text] otherwise. *)
Definition select_name (has_name_col : bool) (level : Z) (r : Z * Post)
    : string :=
  let fallback := "Cluster " +:+ pretty r.1 in
  if has_name_col then default fallback (ea_cluster_name r.2 !! level)
  else fallback.

(** [GROUP BY id_col, cluster_name] over the assigned rows. *)
Definition cluster_groups (has_name_col : bool) (level : Z)
    (rows : list (Z * Post)) : list ((Z * string) * list (Z * Post)) :=
  group_by (λ r, (r.1, select_name has_name_col level r)) rows.

(** [ORDER BY post_count DESC, cluster_id ASC] on the pair
    (post_count, cluster_id). *)
Definition count_desc_id_asc (a b : Z * Z) : Prop :=
  b.1 < a.1 ∨ (a.1 = b.1 ∧ a.2 ≤ b.2).

Global Instance count_desc_id_asc_dec : RelDecision count_desc_id_asc.
Proof. intros a b; unfold count_desc_id_asc; apply _. Defined.

Definition order_by {A} (key : A → Z * Z) (rows : list A) : list A :=
  merge_sort (λ x y, count_desc_id_asc (key x) (key y)) rows.

Definition level_overview_row (level : Z) (pop : list Post) : LevelRow.t :=
  {| LevelRow.level := level;
     LevelRow.post_count := sql_count pop;
     LevelRow.meta_posts := sql_sum_case "EA_META" pop;
     LevelRow.proper_posts := sql_sum_case "EA_PROPER" pop;
     LevelRow.avg_base_score := sql_avg (base_score <$> pop);
     LevelRow.stddev_base_score := sql_stddev (base_score <$> pop);
     LevelRow.avg_score := sql_avg (score <$> pop);
     LevelRow.stddev_score := sql_stddev (score <$> pop) |}.

Definition cluster_row (level : Z) (g : (Z * string) * list (Z * Post))
    : ClusterRow.t :=
  let members := snd <$> g.2 in
  {| ClusterRow.level := level;
     ClusterRow.cluster_id := g.1.1;
     ClusterRow.cluster_name := g.1.2;
     ClusterRow.post_count := sql_count members;
     ClusterRow.meta_posts := sql_sum_case "EA_META" members;
     ClusterRow.proper_posts := sql_sum_case "EA_PROPER" members;
     ClusterRow.avg_base_score := sql_avg (base_score <$> members);
     ClusterRow.stddev_base_score := sql_stddev (base_score <$> members);
     ClusterRow.avg_score := sql_avg (score <$> members);
     ClusterRow.stddev_score := sql_stddev (score <$> members) |}.

Definition cluster_key (r : ClusterRow.t) : Z * Z :=
  (ClusterRow.post_count r, ClusterRow.cluster_id r).

Definition summary_row (g : (Z * string) * list (Z * Post)) : SummaryRow.t :=
  let members := snd <$> g.2 in
  {| SummaryRow.cluster_id := g.1.1;
     SummaryRow.cluster_name := g.1.2;
     SummaryRow.post_count := sql_count members;
     SummaryRow.avg_base_score := sql_avg (base_score <$> members);
     SummaryRow.stddev_base_score := sql_stddev (base_score <$> members) |}.

Definition summary_key (r : SummaryRow.t) : Z * Z :=
  (SummaryRow.post_count r, SummaryRow.cluster_id r).

Global Instance result_ret : MRet result := λ A a, Ok a.
Global Instance result_bind : MBind result := λ A B f m,
  match m with
  | Ok a => f a
  | Raise e => Raise e
  end.

(** The columns every export statement reads besides the level's own. *)
Definition export_columns : list string :=
  ["ea_classification"; "base_score"; "score"].

(** The row that the statement of [export_level_overview_csv] returns
    for a level: an aggregate without GROUP BY always yields one row. *)
Definition level_overview_result (conn : Conn) (level : Z) : LevelRow.t :=
  level_overview_row level (snd <$> assigned level (fellowship_mvp conn)).

(** The statement of [export_level_overview_csv] for one level whose id
    column exists. *)
Definition level_overview_query (conn : Conn) (level : Z)
    : result LevelRow.t :=
  check_columns conn export_columns;;
  Ok (level_overview_result conn level).

(** The rows that the statement of [export_cluster_details_csv] returns
    for a level, tagged with the level. *)
Definition cluster_details_result (conn : Conn) (level : Z)
    : list ClusterRow.t :=
  let has_name_col := column_exists conn "fellowship_mvp" (name_col level) in
  order_by cluster_key
    (cluster_row level <$>
       cluster_groups has_name_col level
         (assigned level (fellowship_mvp conn))).

(** The statement of [export_cluster_details_csv] for one level whose id
    column exists. *)
Definition cluster_details_query (conn : Conn) (level : Z)
    : result (list ClusterRow.t) :=
  check_columns conn export_columns;;
  Ok (cluster_details_result conn level).

(** ** The aggregator process *)

Inductive console_line :=
| Text (s : string)
| ClusterLine (name : string) (posts : Z)
    (avg_base : option Q) (std_base : option root)
| ClassLine (label : string) (posts : Z)
    (avg_base : option Q) (std_base : option root)
    (avg_score : option Q) (std_score : option root).

(** A CSV file: the header is fixed by [fieldnames], the data rows
    follow. *)
Inductive artifact :=
| LevelCsv (rows : list LevelRow.t)
| ClusterCsv (rows : list ClusterRow.t).

(** What a run can change: the console, the files, and whether the
    connection it holds is open. *)
Record Proc := {
  stdout : list console_line;
  files : gmap string artifact;
  conn_open : bool;
}.

Definition M (A : Type) : Type := Proc → result A * Proc.

Global Instance M_ret : MRet M := λ A a s, (Ok a, s).
Global Instance M_bind : MBind M := λ A B f m s,
  match m s with
  | (Ok a, s') => f a s'
  | (Raise e, s') => (Raise e, s')
  end.

(** A query result enters the process; a raised error propagates. *)
Definition lift {A} (r : result A) : M A := λ s, (r, s).

Definition print (l : console_line) : M unit := λ s,
  (Ok (), {| stdout := stdout s ++ [l]; files := files s;
             conn_open := conn_open s |}).

(** [out_path.open("w")] followed by the writer: the file is replaced. *)
Definition write_file (path : string) (a : artifact) : M unit := λ s,
  (Ok (), {| stdout := stdout s; files := <[path := a]> (files s);
             conn_open := conn_open s |}).

Definition set_conn_open (b : bool) : M unit := λ s,
  (Ok (), {| stdout := stdout s; files := files s; conn_open := b |}).

(** [try: body finally: cleanup] *)
Definition finally {A} (body : M A) (cleanup : M unit) : M A := λ s,
  match body s with
  | (r, s') =>
      match cleanup s' with
      | (Ok _, s'') => (r, s'')
      | (Raise e, s'') => (Raise e, s'')
      end
  end.

Fixpoint for_each {A} (l : list A) (body : A → M unit) : M unit :=
  match l with
  | [] => mret ()
  | x :: l' => body x;; for_each l' body
  end.

Definition DEFAULT_LEVELS : list Z := [5; 12; 30; 60].

Definition print_header (title : string) : M unit :=
  print (Text (Py.repeat "=" 80));;
  print (Text title);;
  print (Text (Py.repeat "=" 80)).

(** Truth value of an optional string: [None] and [""] are false. *)
Definition opt_truthy (o : option string) : bool :=
  match o with
  | Some s => Py.truthy s
  | None => false
  end.

(** The statement of [summarize_level]; [wanted] is the classification
    the WHERE clause keeps, when one was added. *)
Definition summary_query (conn : Conn) (level : Z) (wanted : option string)
    : result (list SummaryRow.t) :=
  let has_name_col := column_exists conn "fellowship_mvp" (name_col level) in
  let pop := assigned level (fellowship_mvp conn) in
  let pop :=
    match wanted with
    | Some c => filter (λ r, ea_classification r.2 = Some c) pop
    | None => pop
    end in
  check_columns conn ["base_score"];;
  Ok (order_by summary_key
        (summary_row <$> cluster_groups has_name_col level pop)).

Definition summarize_level (conn : Conn) (level : Z)
    (classification_filter : option string) : M unit :=
  if negb (column_exists conn "fellowship_mvp" (id_col level)) then
    print (Text ("[skip] " +:+ pretty level +:+
                 "-cluster columns not found (missing " +:+ id_col level +:+
                 ")"))
  else
    let wanted :=
      if opt_truthy classification_filter
         && column_exists conn "fellowship_mvp" "ea_classification"
      then classification_filter else None in
    rows ← lift (summary_query conn level wanted);
    let subtitle :=
      "Cluster Level " +:+ pretty level +:+
      (if opt_truthy classification_filter
       then "  |  EA Classification = " +:+ default "" classification_filter
       else "") in
    print (Text subtitle);;
    print (Text (Py.repeat "-" (String.length subtitle)));;
    match rows with
    | [] => print (Text "(no rows)");; print (Text "")
    | _ =>
        for_each rows (λ row,
          let name :=
            if Py.truthy (SummaryRow.cluster_name row)
            then SummaryRow.cluster_name row
            else "Cluster " +:+ pretty (SummaryRow.cluster_id row) in
          print (ClusterLine name (SummaryRow.post_count row)
                   (SummaryRow.avg_base_score row)
                   (SummaryRow.stddev_base_score row)));;
        print (Text "")
    end.

(** The levels whose id column exists, in the order given. *)
Definition supported (conn : Conn) (levels : list Z) : list Z :=
  filter (λ level, column_exists conn "fellowship_mvp" (id_col level)) levels.

(** The loop of [export_level_overview_csv]: levels without an id column
    are passed over, the others contribute one row each. *)
Fixpoint level_overview_rows (conn : Conn) (levels : list Z)
    : result (list LevelRow.t) :=
  match levels with
  | [] => Ok []
  | level :: levels' =>
      if negb (column_exists conn "fellowship_mvp" (id_col level)) then
        level_overview_rows conn levels'
      else
        r ← level_overview_query conn level;
        rows ← level_overview_rows conn levels';
        Ok (r :: rows)
  end.

Definition export_level_overview_csv (conn : Conn) (levels : list Z)
    (out_path : string) : M unit :=
  rows ← lift (level_overview_rows conn levels);
  write_file out_path (LevelCsv rows).

(** The loop of [export_cluster_details_csv]. *)
Fixpoint cluster_details_rows (conn : Conn) (levels : list Z)
    : result (list ClusterRow.t) :=
  match levels with
  | [] => Ok []
  | level :: levels' =>
      if negb (column_exists conn "fellowship_mvp" (id_col level)) then
        cluster_details_rows conn levels'
      else
        res ← cluster_details_query conn level;
        all_rows ← cluster_details_rows conn levels';
        Ok (res ++ all_rows)
  end.

Definition export_cluster_details_csv (conn : Conn) (levels : list Z)
    (out_path : string) : M unit :=
  all_rows ← lift (cluster_details_rows conn levels);
  write_file out_path (ClusterCsv all_rows).

(** The machine the aggregator runs on: its environment (after
    [load_dotenv]), the database that [DATABASE_URL] leads to ([None] when
    [psycopg2.connect] raises), the directory of the script and
    [Path.resolve]. *)
Record Host := {
  environ : gmap string string;
  database : option Conn;
  script_dir : string;
  resolve : string → string;
}.

(** [os.getenv(name, "")] *)
Definition getenv (h : Host) (name : string) : string :=
  default "" (environ h !! name).

Definition connect_db (h : Host) : M Conn :=
  match database h with
  | Some conn => set_conn_open true;; mret conn
  | None => lift (Raise OperationalError)
  end.

(** The levels read from [CLUSTER_LEVELS] (already stripped): the
    non-blank pieces between commas, each through the interpreter's
    [int]; any failure gives the defaults, as does the empty setting. *)
Definition parse_levels_with (int : string → option Z) (levels_env : string)
    : list Z :=
  if Py.truthy levels_env then
    match mapM int
            (filter (λ x, Py.truthy (Py.strip x)) (Py.split "," levels_env))
    with
    | Some levels => levels
    | None => DEFAULT_LEVELS
    end
  else DEFAULT_LEVELS.

(** The same on an ASCII setting. *)
Definition parse_levels (levels_env : string) : list Z :=
  parse_levels_with Py.int levels_env.

(** [classification_values]: whether the column exists and its distinct
    non-NULL values in the ascending order of the server's collation. *)
Definition classification_values (conn : Conn) : bool * list string :=
  if negb (column_exists conn "fellowship_mvp" "ea_classification") then
    (false, [])
  else
    (true,
     merge_sort (λ a b, collation conn a b)
       (remove_dups (omap ea_classification (fellowship_mvp conn)))).

(** The top-of-report statement: one row for each of the two labels that
    has posts, in label order. *)
Definition meta_vs_proper_query (conn : Conn) : result (list console_line) :=
  check_columns conn ["base_score"; "score"];;
  Ok (omap (λ lab : string * string,
        let g := filter (λ p, ea_classification p = Some lab.1)
                   (fellowship_mvp conn) in
        match g with
        | [] => None
        | _ =>
            Some (ClassLine lab.2 (sql_count g)
                    (sql_avg (base_score <$> g))
                    (sql_stddev (base_score <$> g))
                    (sql_avg (score <$> g))
                    (sql_stddev (score <$> g)))
        end)
      [("EA_META", "EA Meta"); ("EA_PROPER", "EA Proper")]).

Definition main_body (h : Host) (conn : Conn) (levels : list Z)
    (classification_filter : option string) : M unit :=
  (if column_exists conn "fellowship_mvp" "ea_classification" then
     print_header "EA Meta vs Proper Summary (base_score and score)";;
     rows ← lift (meta_vs_proper_query conn);
     for_each rows print;;
     print (Text "")
   else mret ());;
  print_header "EA Forum Cluster Score Summary";;
  for_each levels (λ level, summarize_level conn level classification_filter);;
  let out_dir_env := Py.strip (getenv h "CLUSTER_SUMMARY_CSV_DIR") in
  let out_dir :=
    if Py.truthy out_dir_env then resolve h out_dir_env else script_dir h in
  let level_csv := out_dir +:+ "/cluster_level_summary.csv" in
  let cluster_csv := out_dir +:+ "/cluster_cluster_summary.csv" in
  export_level_overview_csv conn levels level_csv;;
  export_cluster_details_csv conn levels cluster_csv;;
  print (Text ("CSV exported: " +:+ level_csv));;
  print (Text ("CSV exported: " +:+ cluster_csv));;
  print (Text "");;
  let '(has_class, values) := classification_values conn in
  if has_class && negb (opt_truthy classification_filter) then
    print_header "Breakdown by EA Classification";;
    for_each values (λ cls,
      for_each levels (λ level, summarize_level conn level (Some cls)))
  else mret ().

(** [main], given what the interpreter's [int] makes of a text. *)
Definition main_with (int : string → option Z) (h : Host) : M unit :=
  let levels := parse_levels_with int (Py.strip (getenv h "CLUSTER_LEVELS")) in
  let classification_env := Py.strip (getenv h "EA_CLASSIFICATION_FILTER") in
  let classification_filter :=
    if Py.truthy classification_env then Some classification_env else None in
  conn ← connect_db h;
  finally (main_body h conn levels classification_filter)
          (set_conn_open false).

(** [main] on ASCII settings. *)
Definition main (h : Host) : M unit := main_with Py.int h.

(** The state a fresh process starts from, over the files already on
    disk. *)
Definition start (fs : gmap string artifact) : Proc :=
  {| stdout := []; files := fs; conn_open := false |}.

(** ** The viewer *)

Module Viewer.

(** [st.secrets]: the top-level string entries and the [connections]
    table, each connection a table of strings. *)
Record Secrets := {
  entries : gmap string string;
  connections : option (gmap string (gmap string string));
}.

(** What the dashboard runs on. [secrets] is [None] when reading
    [st.secrets] raises; [environ] is the environment the process was
    started with; [dotenv] holds what [load_dotenv] would add;
    [server url] is the database behind [url], [None] when connecting
    raises. A CSV path that does not exist is [None]; one that exists
    holds the data rows under its header line, unless the file has no
    bytes at all, which the two last fields tell. *)
Record Host := {
  secrets : option Secrets;
  environ : gmap string string;
  dotenv : gmap string string;
  HAVE_PSYCOPG2 : bool;
  HAVE_PSYCOPG : bool;
  server : string → option Conn;
  LEVEL_CSV : string;
  CLUSTER_CSV : string;
  level_file : option (list LevelRow.t);
  cluster_file : option (list ClusterRow.t);
  level_file_zero_bytes : bool;
  cluster_file_zero_bytes : bool;
}.

(** A key that is present with a non-empty value. *)
Definition present (m : gmap string string) (k : string) : option string :=
  match m !! k with
  | Some v => if Py.truthy v then Some v else None
  | None => None
  end.

(** The first of [postgres], [pg], [default] that carries a [url] or else
    a [DATABASE_URL]. *)
Fixpoint connection_url (conns : gmap string (gmap string string))
    (keys : list string) : option string :=
  match keys with
  | [] => None
  | key :: keys' =>
      match conns !! key with
      | Some cfg =>
          match present cfg "url" with
          | Some v => Some v
          | None =>
              match present cfg "DATABASE_URL" with
              | Some v => Some v
              | None => connection_url conns keys'
              end
          end
      | None => connection_url conns keys'
      end
  end.

Definition secrets_url (h : Host) : option string :=
  match secrets h with
  | Some s =>
      match present (entries s) "DATABASE_URL" with
      | Some v => Some v
      | None =>
          match connections s with
          | Some conns => connection_url conns ["postgres"; "pg"; "default"]
          | None => None
          end
      end
  | None => None
  end.

(** [os.environ] once [st.secrets] has been read: Streamlit exports
    every top-level entry of the secrets to the environment of the
    process, over what was there. Nothing is exported when reading the
    secrets raises. *)
Definition environ_after_secrets (h : Host) : gmap string string :=
  match secrets h with
  | Some s => entries s ∪ environ h
  | None => environ h
  end.

Definition get_database_url (h : Host) : string :=
  match secrets_url h with
  | Some v => v
  | None =>
      let env := environ_after_secrets h in
      let val := Py.strip (default "" (env !! "DATABASE_URL")) in
      if Py.truthy val then val
      else Py.strip (default "" ((env ∪ dotenv h) !! "DATABASE_URL"))
  end.

Definition connect_db (h : Host) : option Conn :=
  let url := get_database_url h in
  if negb (Py.truthy url) then None
  else if HAVE_PSYCOPG2 h || HAVE_PSYCOPG h then server h url
  else None.

(** [ORDER BY x DESC NULLS LAST] on an optional key. *)
Definition desc_nulls_last {A} (leb : A → A → bool) (x y : option A) : bool :=
  match x, y with
  | Some a, Some b => leb b a
  | Some _, None => true
  | None, Some _ => false
  | None, None => true
  end.

(** The ORDER BY clause chosen by [sort_by]: by score when it is
    "score", by publication time otherwise. *)
Definition post_leb (sort_by : string) (p q : Post) : bool :=
  if bool_decide (sort_by = "score")
  then desc_nulls_last Qle_bool (score p) (score q)
  else desc_nulls_last Z.leb (posted_at p) (posted_at q).

Definition post_order (sort_by : string) (p q : Post) : Prop :=
  post_leb sort_by p q.

Global Instance post_order_dec sort_by : RelDecision (post_order sort_by).
Proof. intros p q; unfold post_order; apply _. Defined.

(** The statement of [fetch_cluster_posts]. *)
Definition cluster_posts_query (conn : Conn) (level cluster_id : Z)
    (sort_by : string) : result (list Post) :=
  check_columns conn
    ["post_id"; "title"; "author_display_name"; "posted_at"; "base_score";
     "score"; id_col level];;
  Ok (take 500
        (merge_sort (post_order sort_by)
           (filter (λ p, ea_cluster p !! level = Some cluster_id)
              (fellowship_mvp conn)))).

(** [.round(0).astype("Int64")] on one float64 cell. The cast raises
    unless the value comes back from int64 unchanged, that is unless the
    nearest double of the value lies from -2^63 up to, not including,
    2^63. The doubles next to these bounds are -2^63 - 2048 and
    2^63 - 1024 and ties go to the even mantissa, so the values that
    pass are those from -2^63 - 1024 up to, not including, 2^63 - 512. *)
Definition fits_Int64 (x : Q) : bool :=
  Qle_bool (inject_Z (- 2 ^ 63 - 1024)) x
  && negb (Qle_bool (inject_Z (2 ^ 63 - 512)) x).

(** The same for a square root. *)
Definition root_fits_Int64 (r : root) : bool :=
  negb (Qle_bool (inject_Z ((2 ^ 63 - 512) * (2 ^ 63 - 512))) (radicand r)).

(** The cast of a whole column; an empty cell becomes NA. *)
Definition astype_Int64 {A} (fits : A → bool) (column : list (option A))
    : result unit :=
  if forallb (from_option fits true) column then Ok () else Raise TypeError.

(** [fetch_cluster_posts]. The data frame is represented by the fetched
    rows, in order; it shows their six selected columns. The statement
    and the formatting of a non-empty frame run inside one [try]: when
    the cast of base_score raises, the empty frame is returned as when
    the statement raises. The other conversions (time stamp to date,
    rounding of score) change the cells shown and cannot raise. *)
Definition fetch_cluster_posts (h : Host) (level cluster_id : Z)
    (sort_by : string) : list Post :=
  match connect_db h with
  | None => []
  | Some conn =>
      match
        rows ← cluster_posts_query conn level cluster_id sort_by;
        astype_Int64 fits_Int64 (base_score <$> rows);;
        Ok rows
      with
      | Ok rows => rows
      | Raise _ => []
      end
  end.

(** What [main] puts on the page, coarsely: the interactive widgets of
    a level section are not modelled. *)
Inductive element :=
| Title (s : string)
| Caption (s : string)
| Error (msg : string)
| Overview (total_posts meta_posts proper_posts : Z)
    (avg_base : option Q) (std_base : option root)
    (avg_score : option Q) (std_score : option root)
| Divider
| LevelSection (level : Z) (rows : list ClusterRow.t).

(** How a script run ends: to the end of the script, by [st.stop()], or
    with an uncaught exception. *)
Inductive ending :=
| Completed
| Stopped
| Crashed (e : exn).

(** [int(x)] on a cell read back by pandas: an empty cell is NaN, on
    which [int] raises. *)
Definition int_cell (x : option Z) : result Z :=
  match x with
  | Some n => Ok n
  | None => Raise ValueError
  end.

(** The top summary, from the first row of the level frame. *)
Definition overview (r : LevelRow.t) : result element :=
  let total_posts := LevelRow.post_count r in
  meta_posts ← int_cell (LevelRow.meta_posts r);
  proper_posts ← int_cell (LevelRow.proper_posts r);
  Ok (Overview total_posts meta_posts proper_posts
        (LevelRow.avg_base_score r) (LevelRow.stddev_base_score r)
        (LevelRow.avg_score r) (LevelRow.stddev_score r)).

(** A column without any value. *)
Definition all_empty {A} (column : list (option A)) : bool :=
  forallb (λ x : option A, match x with Some _ => false | None => true end)
    column.

(** [float(column.max() or 0.0)] on a nullable integer column: the
    maximum of a column without any value is NA, whose truth value [or]
    cannot take. *)
Definition Int64_max_or_zero {A} (column : list (option A)) : result unit :=
  if all_empty column then Raise TypeError else Ok ().

(** [st.dataframe] with the bounds of its progress columns. On a
    floating-point column [float(column.max() or 0.0)] does not raise:
    the maximum of a column without any value is NaN, which counts as
    true and is the bound. The column configuration is written as JSON,
    which has no NaN: the call raises when a bound is one. *)
Definition st_dataframe {A B} (avg_score : list (option A))
    (stddev_score : list (option B)) : result unit :=
  if all_empty avg_score || all_empty stddev_score
  then Raise StreamlitAPIException else Ok ().

(** What the table of a level section does with the rows [df] of the
    level: the two base-score columns are cast to the nullable integer
    type (the two score columns stay floating point), the maxima of the
    columns are taken as the bounds of the progress columns, and the
    table is shown. *)
Definition level_table (df : list ClusterRow.t) : result unit :=
  astype_Int64 fits_Int64 (ClusterRow.avg_base_score <$> df);;
  astype_Int64 root_fits_Int64 (ClusterRow.stddev_base_score <$> df);;
  Int64_max_or_zero (ClusterRow.avg_base_score <$> df);;
  Int64_max_or_zero (ClusterRow.stddev_base_score <$> df);;
  st_dataframe (ClusterRow.avg_score <$> df) (ClusterRow.stddev_score <$> df).

(** The level sections, in order, up to the first whose table raises;
    the divider in front of that section is already on the page. *)
Fixpoint level_sections (first : bool) (levels : list Z)
    (cluster_df : list ClusterRow.t) : list element * ending :=
  match levels with
  | [] => ([], Completed)
  | level :: levels' =>
      let df := filter (λ r, ClusterRow.level r = level) cluster_df in
      let divider := if first then [] else [Divider] in
      match level_table df with
      | Ok _ =>
          let rest := level_sections false levels' cluster_df in
          (divider ++ LevelSection level df :: rest.1, rest.2)
      | Raise e => (divider, Crashed e)
      end
  end.

Definition main (h : Host) : list element * ending :=
  let page := [Title "EA Forum Cluster Dashboard";
               Caption "Clean, readable view of clusters and score statistics"] in
  match level_file h, cluster_file h with
  | Some level_df, Some cluster_df =>
      if level_file_zero_bytes h || cluster_file_zero_bytes h then
        (page, Crashed EmptyDataError)
      else
      let available_levels :=
        merge_sort Z.le (remove_dups (ClusterRow.level <$> cluster_df)) in
      let sections := level_sections true available_levels cluster_df in
      match level_df with
      | [] => (page ++ sections.1, sections.2)
      | r :: _ =>
          match overview r with
          | Ok o => (page ++ o :: sections.1, sections.2)
          | Raise e => (page, Crashed e)
          end
      end
  | _, _ =>
      (page ++
       [Error ("CSV files not found. Expected '" +:+ LEVEL_CSV h +:+
               "' and '" +:+ CLUSTER_CSV h +:+
               "'." +:+ String "010" "" +:+
               "Run summarize_cluster_scores.py first to generate them.")],
       Stopped)
  end.

End Viewer.

(** ** More Python text helpers *)

Module PyText.

(** [sep.join(pieces)] *)
Definition join (sep : string) (pieces : list string) : string :=
  String.concat sep pieces.

(** Whether [s] begins with [p]. *)
Fixpoint starts_with (p s : string) : bool :=
  match p, s with
  | EmptyString, _ => true
  | String a p', String b s' => Ascii.eqb a b && starts_with p' s'
  | String _ _, EmptyString => false
  end.

(** [s.split(sep, 1)[0]] for a non-empty [sep]: the text before the
    first occurrence of [sep], all of [s] when there is none. *)
Fixpoint before (sep s : string) : string :=
  if starts_with sep s then EmptyString
  else
    match s with
    | EmptyString => EmptyString
    | String c s' => String c (before sep s')
    end.

(** [s.split()]: the maximal runs of characters that are not white
    space. [cur] holds the run being read, last character first. *)
Fixpoint split_ws_go (cur : string) (s : string) : list string :=
  match s with
  | EmptyString => if Py.truthy cur then [String.rev cur] else []
  | String c s' =>
      if Py.is_space c then
        if Py.truthy cur then String.rev cur :: split_ws_go EmptyString s'
        else split_ws_go EmptyString s'
      else split_ws_go (String c cur) s'
  end.

Definition split_ws (s : string) : list string := split_ws_go EmptyString s.

(** [len(s)] *)
Definition len (s : string) : Z := Z.of_nat (String.length s).

(** Every character of [s] satisfies [P]. *)
Fixpoint all_chars (P : ascii → bool) (s : string) : bool :=
  match s with
  | EmptyString => true
  | String c s' => P c && all_chars P s'
  end.

End PyText.

(** ** The viewer: labels and the cluster selector *)

(** The loop of [wrap_label]: [lines] are the finished lines, [cur] the
    words of the line being filled and [cur_len] its length. *)
Fixpoint wrap_go (width : Z) (words : list string) (lines : list string)
    (cur : list string) (cur_len : Z) : list string :=
  match words with
  | [] =>
      match cur with
      | [] => lines
      | _ => lines ++ [PyText.join " " cur]
      end
  | w :: words' =>
      if width <? cur_len + PyText.len w + (match cur with [] => 0 | _ => 1 end)
      then wrap_go width words' (lines ++ [PyText.join " " cur]) [w]
             (PyText.len w)
      else wrap_go width words' lines (cur ++ [w])
             (cur_len + (PyText.len w + if cur_len =? 0 then 0 else 1))
  end.

(** The lines of a wrapped label. *)
Definition wrap_lines (text : string) (width : Z) : list string :=
  wrap_go width (PyText.split_ws text) [] [] 0.

(** [wrap_label(text, width)] for a string [text]: the lines joined by
    line feeds. *)
Definition wrap_label (text : string) (width : Z) : string :=
  PyText.join (String "010" EmptyString) (wrap_lines text width).

(** The words of the lines that [wrap_go] adds to [lines], line by
    line: the companion of [wrap_go] that keeps the words apart. *)
Fixpoint wrap_groups (width : Z) (words : list string) (cur : list string)
    (cur_len : Z) : list (list string) :=
  match words with
  | [] =>
      match cur with
      | [] => []
      | _ => [cur]
      end
  | w :: words' =>
      if width <? cur_len + PyText.len w + (match cur with [] => 0 | _ => 1 end)
      then cur :: wrap_groups width words' [w] (PyText.len w)
      else wrap_groups width words' (cur ++ [w])
             (cur_len + (PyText.len w + if cur_len =? 0 then 0 else 1))
  end.

(** A word: not empty and free of white space. *)
Definition is_word (w : string) : bool :=
  Py.truthy w && PyText.all_chars (λ c, negb (Py.is_space c)) w.

(** What the loop keeps: [cur_len] is the length of the line being
    filled, and that line is made of words. *)
Definition wrap_inv (cur : list string) (cur_len : Z) : Prop :=
  Forall (λ w, is_word w = true) cur ∧
  cur_len = PyText.len (PyText.join " " cur).

(** The characters of a numeral: the ten digits and the minus sign. *)
Definition numeral_char (c : ascii) : bool :=
  match Py.digit_value c with
  | Some _ => true
  | None => Ascii.eqb c "-"
  end.

(** The separator of a selector option: an em dash (U+2014, three bytes
    in UTF-8) between two blanks. *)
Definition OPTION_SEP : string :=
  String " " (String "226" (String "128" (String "148"
    (String " " EmptyString)))).

(** An option of the cluster selector, for a row of the level. *)
Definition select_option (c_id : Z) (name : string) : string :=
  pretty c_id +:+ OPTION_SEP +:+ name.

(** The cluster id read back from the chosen option; [None] stands for
    the [ValueError] of [int]. *)
Definition selected_cluster_id (sel : string) : option Z :=
  Py.int (PyText.before OPTION_SEP sel).

(** ** Reading the artifacts *)

(** The rows of an artifact that carry a given level. *)
Definition level_rows_at (L : Z) (rows : list LevelRow.t) : list LevelRow.t :=
  filter (λ r, LevelRow.level r = L) rows.

Definition cluster_rows_at (L : Z) (rows : list ClusterRow.t)
    : list ClusterRow.t :=
  filter (λ r, ClusterRow.level r = L) rows.

(** How many times a level is listed among the configured levels. *)
Definition listed (L : Z) (levels : list Z) : nat :=
  length (filter (λ level, level = L) levels).

(** Row [r1] may stand before row [r2]: more posts, or as many and a
    cluster id that is not larger. *)
Definition cluster_order (r1 r2 : ClusterRow.t) : Prop :=
  count_desc_id_asc (cluster_key r1) (cluster_key r2).

Global Instance cluster_order_dec : RelDecision cluster_order.
Proof. intros r1 r2; unfold cluster_order; apply _. Defined.

(** The invariant of an artifact row: both label counts are present
    and together do not exceed the post count. *)
Definition counts_within (post_count : Z) (meta_posts proper_posts : option Z)
    : Prop :=
  ∃ m p, meta_posts = Some m ∧ proper_posts = Some p ∧ m + p ≤ post_count.

(** ** Reading a run *)

(** The state after some more console output. *)
Definition log (s : Proc) (out : list console_line) : Proc :=
  {| stdout := stdout s ++ out; files := files s; conn_open := conn_open s |}.

(** A step that only prints: it ends with [r] whatever the state, and
    leaves the files and the connection as they were. *)
Definition prints_only (m : M unit) (r : result unit) : Prop :=
  ∀ s, ∃ out, m s = (r, log s out).

(** A step that may end either way but only prints. *)
Definition console_only (m : M unit) : Prop :=
  ∀ s, ∃ r out, m s = (r, log s out).

(** How [summarize_level] ends: it raises only when the level is
    supported and [base_score] is missing. *)
Definition summarize_status (conn : Conn) (level : Z) : result unit :=
  if column_exists conn "fellowship_mvp" (id_col level)
  then check_columns conn ["base_score"]
  else Ok ().

Fixpoint summaries_status (conn : Conn) (levels : list Z) : result unit :=
  match levels with
  | [] => Ok ()
  | level :: levels' =>
      summarize_status conn level;; summaries_status conn levels'
  end.

(** How the console part of [main] that precedes the exports ends. *)
Definition report_status (conn : Conn) (levels : list Z) : result unit :=
  (if column_exists conn "fellowship_mvp" "ea_classification"
   then meta_vs_proper_query conn;; Ok ()
   else Ok ());;
  summaries_status conn levels.

(** The directory the artifacts go to. *)
Definition out_dir (h : Host) : string :=
  let out_dir_env := Py.strip (getenv h "CLUSTER_SUMMARY_CSV_DIR") in
  if Py.truthy out_dir_env then resolve h out_dir_env else script_dir h.

(** What a run that got its connection does to the files: nothing when
    the console report raises or the first export raises; otherwise the
    level CSV is replaced, and the cluster CSV too unless the second
    export raises. *)
Definition exported (h : Host) (conn : Conn) (levels : list Z)
    (fs : gmap string artifact) : gmap string artifact :=
  match report_status conn levels, level_overview_rows conn levels with
  | Ok _, Ok lrows =>
      let fs' :=
        <[out_dir h +:+ "/cluster_level_summary.csv" := LevelCsv lrows]> fs in
      match cluster_details_rows conn levels with
      | Ok crows =>
          <[out_dir h +:+ "/cluster_cluster_summary.csv" := ClusterCsv crows]>
            fs'
      | Raise _ => fs'
      end
  | _, _ => fs
  end.


(** ** Outcome of a run *)

(** How a run that got its connection ends: the console report, then
    the two exports; what follows the exports prints only. *)
Definition run_status (conn : Conn) (levels : list Z) : result unit :=
  report_status conn levels;;
  level_overview_rows conn levels;;
  cluster_details_rows conn levels;;
  Ok ().

(** The two paths a run writes to. *)
Definition level_csv_path (h : Host) : string :=
  out_dir h +:+ "/cluster_level_summary.csv".

Definition cluster_csv_path (h : Host) : string :=
  out_dir h +:+ "/cluster_cluster_summary.csv".

(** ** Reading the console *)

(** The lines [summarize_level] prints below its heading for the rows
    its statement returned. *)
Definition summary_lines (rows : list SummaryRow.t) : list console_line :=
  match rows with
  | [] => [Text "(no rows)"; Text ""]
  | _ =>
      ((λ row,
          ClusterLine
            (if Py.truthy (SummaryRow.cluster_name row)
             then SummaryRow.cluster_name row
             else "Cluster " +:+ pretty (SummaryRow.cluster_id row))
            (SummaryRow.post_count row)
            (SummaryRow.avg_base_score row)
            (SummaryRow.stddev_base_score row)) <$> rows) ++ [Text ""]
  end.

(** The heading of a level summary. *)
Definition summary_heading (level : Z) (classification_filter : option string)
    : list console_line :=
  let subtitle :=
    "Cluster Level " +:+ pretty level +:+
    (if opt_truthy classification_filter
     then "  |  EA Classification = " +:+ default "" classification_filter
     else "") in
  [Text subtitle; Text (Py.repeat "-" (String.length subtitle))].

(** The key a cluster row is grouped under. *)
Definition cluster_ident (r : ClusterRow.t) : Z * string :=
  (ClusterRow.cluster_id r, ClusterRow.cluster_name r).

(** Post [p] is counted in cluster row [r]: it has a cluster id at the
    level of the row, and this id and the cluster name selected for it
    are those of the row. *)
Definition row_member (conn : Conn) (r : ClusterRow.t) (p : Post) : Prop :=
  let L := ClusterRow.level r in
  (λ c, (c, select_name (column_exists conn "fellowship_mvp" (name_col L)) L
              (c, p))) <$> ea_cluster p !! L
  = Some (cluster_ident r).

Global Instance row_member_dec conn r p : Decision (row_member conn r p).
Proof. unfold row_member; apply _. Defined.

(** The posts a level summary covers: those with a cluster id at the
    level that carry the wanted label, when one is wanted. *)
Definition considered (level : Z) (wanted : option string) (p : Post)
    : Prop :=
  is_Some (ea_cluster p !! level) ∧
  match wanted with
  | Some c => ea_classification p = Some c
  | None => True
  end.

Global Instance considered_dec level wanted p :
  Decision (considered level wanted p).
Proof. unfold considered; destruct wanted; apply _. Defined.

(** ** Reading the secrets *)

(** The top-level DATABASE_URL entry of the secrets, when they can be
    read and have one. *)
Definition secret_database_url (h : Viewer.Host) : option string :=
  s ← Viewer.secrets h; Viewer.entries s !! "DATABASE_URL".

(** ** Reading a page *)

(** The exceptions that the table of a level section raises. *)
Definition table_exn (e : exn) : Prop :=
  e = TypeError ∨ e = StreamlitAPIException.

(** The level of a page element that is a level section. *)
Definition section_level (e : Viewer.element) : option Z :=
  match e with
  | Viewer.LevelSection level _ => Some level
  | _ => None
  end.

(** The first two elements of every page. *)
Definition page_head : list Viewer.element :=
  [Viewer.Title "EA Forum Cluster Dashboard";
   Viewer.Caption "Clean, readable view of clusters and score statistics"].

(** * Sample databases

    [example_db] holds the three posts of the specification's example at
    level 5. In [dense_db] every post has a cluster at the levels 5 and
    12. [sparse_db] has columns for the levels 5, 12 and 30: post
    [b] has no cluster at level 12 and no post has one at level 30. *)

Definition mk_post (id : string) (cls : option string) (base : Z)
    (clusters : list (Z * Z)) : Post :=
  {| post_id := id; title := None; author_display_name := None;
     posted_at := None; base_score := Some (inject_Z base);
     score := Some (inject_Z base); ea_classification := cls;
     ea_cluster := list_to_map clusters; ea_cluster_name := ∅ |}.

Definition base_catalog : list (string * string) :=
  (λ c, ("fellowship_mvp", c)) <$>
    ["post_id"; "title"; "author_display_name"; "posted_at"; "base_score";
     "score"; "ea_classification"].

Definition example_db : Conn :=
  {| catalog := base_catalog ++ [("fellowship_mvp", "ea_cluster_5")];
     fellowship_mvp :=
       [mk_post "a" (Some "EA_META") 10 [(5, 1)];
        mk_post "b" (Some "EA_PROPER") 20 [(5, 1)];
        mk_post "c" (Some "EA_PROPER") 30 [(5, 2)]];
     collation := String.leb |}.

Definition dense_db : Conn :=
  {| catalog := base_catalog ++
       [("fellowship_mvp", "ea_cluster_5");
        ("fellowship_mvp", "ea_cluster_12")];
     fellowship_mvp :=
       [mk_post "a" (Some "EA_META") 10 [(5, 1); (12, 3)];
        mk_post "b" (Some "EA_PROPER") 20 [(5, 1); (12, 4)];
        mk_post "c" None 30 [(5, 2); (12, 3)]];
     collation := String.leb |}.

(** The first cluster-summary row of [example_db] at level 5. *)
Definition example_row : ClusterRow.t :=
  {| ClusterRow.level := 5; ClusterRow.cluster_id := 1;
     ClusterRow.cluster_name := "Cluster 1";
     ClusterRow.post_count := 2;
     ClusterRow.meta_posts := Some 1;
     ClusterRow.proper_posts := Some 1;
     ClusterRow.avg_base_score := Some (15 # 1);
     ClusterRow.stddev_base_score := Some (SqrtOf (50 # 1));
     ClusterRow.avg_score := Some (15 # 1);
     ClusterRow.stddev_score := Some (SqrtOf (50 # 1)) |}.

(** A table without the ea_classification column. *)
Definition unlabelled_db : Conn :=
  {| catalog :=
       [("fellowship_mvp", "base_score"); ("fellowship_mvp", "score");
        ("fellowship_mvp", "ea_cluster_5")];
     fellowship_mvp := [mk_post "a" None 10 [(5, 1)]];
     collation := String.leb |}.

Definition sparse_db : Conn :=
  {| catalog := base_catalog ++
       [("fellowship_mvp", "ea_cluster_5");
        ("fellowship_mvp", "ea_cluster_12");
        ("fellowship_mvp", "ea_cluster_30")];
     fellowship_mvp :=
       [mk_post "a" (Some "EA_META") 10 [(5, 1); (12, 3)];
        mk_post "b" (Some "EA_PROPER") 20 [(5, 1)];
        mk_post "c" None 30 [(5, 2); (12, 3)]];
     collation := String.leb |}.

(** A table whose one post has a base score beyond the 64-bit
    integers. *)
Definition huge_score_db : Conn :=
  {| catalog := base_catalog ++ [("fellowship_mvp", "ea_cluster_5")];
     fellowship_mvp := [mk_post "a" (Some "EA_META") (10 ^ 30) [(5, 1)]];
     collation := String.leb |}.

(** A table with a single post. *)
Definition one_post_db : Conn :=
  {| catalog := base_catalog ++ [("fellowship_mvp", "ea_cluster_5")];
     fellowship_mvp := [mk_post "a" (Some "EA_META") 10 [(5, 1)]];
     collation := String.leb |}.

(** * Sample hosts *)

Definition example_host (db : option Conn) (env : list (string * string))
    : Host :=
  {| environ := list_to_map env; database := db; script_dir := "/srv/ea";
     resolve := λ path, path |}.

Definition example_viewer (level_df : option (list LevelRow.t))
    (cluster_df : option (list ClusterRow.t)) (db : option Conn)
    : Viewer.Host :=
  {| Viewer.secrets := None;
     Viewer.environ := {["DATABASE_URL" := "postgresql://ea"]};
     Viewer.dotenv := ∅;
     Viewer.HAVE_PSYCOPG2 := true;
     Viewer.HAVE_PSYCOPG := false;
     Viewer.server := λ _, db;
     Viewer.LEVEL_CSV := "/srv/ea/cluster_level_summary.csv";
     Viewer.CLUSTER_CSV := "/srv/ea/cluster_cluster_summary.csv";
     Viewer.level_file := level_df;
     Viewer.cluster_file := cluster_df;
     Viewer.level_file_zero_bytes := false;
     Viewer.cluster_file_zero_bytes := false |}.

(** * Properties *)

(** ** The export loops *)

Section ExportLoops.
Context (conn : Conn).

Lemma supported_cons level levels :
  supported conn (level :: levels) =
    if column_exists conn "fellowship_mvp" (id_col level)
    then level :: supported conn levels
    else supported conn levels.
Proof.
  unfold supported. rewrite filter_cons.
  by destruct (column_exists conn "fellowship_mvp" (id_col level)).
Qed.

(** Both loops succeed or fail together: they fail exactly when some
    level is supported and one of the shared columns is missing. *)
Lemma level_overview_rows_eq levels :
  level_overview_rows conn levels =
    match supported conn levels with
    | [] => Ok []
    | ls => check_columns conn export_columns;;
            Ok (level_overview_result conn <$> ls)
    end.
Proof.
  induction levels as [|level levels IH]; [done|].
  rewrite supported_cons. cbn [level_overview_rows].
  unfold level_overview_query. rewrite IH.
  generalize (check_columns conn export_columns). intros c.
  destruct (column_exists conn "fellowship_mvp" (id_col level)),
    (supported conn levels), c as [[]|e]; done.
Qed.

Lemma cluster_details_rows_eq levels :
  cluster_details_rows conn levels =
    match supported conn levels with
    | [] => Ok []
    | ls => check_columns conn export_columns;;
            Ok (ls ≫= cluster_details_result conn)
    end.
Proof.
  induction levels as [|level levels IH]; [done|].
  rewrite supported_cons. cbn [cluster_details_rows].
  unfold cluster_details_query. rewrite IH.
  generalize (check_columns conn export_columns). intros c.
  destruct (column_exists conn "fellowship_mvp" (id_col level)),
    (supported conn levels), c as [[]|e];
    first [done | cbn; by rewrite app_nil_r].
Qed.

Lemma level_overview_rows_Ok levels rows :
  level_overview_rows conn levels = Ok rows →
  rows = level_overview_result conn <$> supported conn levels.
Proof.
  rewrite level_overview_rows_eq.
  destruct (supported conn levels); [by intros [= <-]|].
  destruct (check_columns conn export_columns) as [[]|e]; simpl;
    [by intros [= <-]|done].
Qed.

Lemma cluster_details_rows_Ok levels rows :
  cluster_details_rows conn levels = Ok rows →
  rows = supported conn levels ≫= cluster_details_result conn.
Proof.
  rewrite cluster_details_rows_eq.
  destruct (supported conn levels); [by intros [= <-]|].
  destruct (check_columns conn export_columns) as [[]|e]; simpl;
    [by intros [= <-]|done].
Qed.
End ExportLoops.

(** ** Sums and groups *)

Lemma sum_Z_app l1 l2 : sum_Z (l1 ++ l2) = sum_Z l1 + sum_Z l2.
Proof. induction l1 as [|x l1 IH]; simpl; lia. Qed.

Global Instance sum_Z_Permutation : Proper ((≡ₚ) ==> (=)) sum_Z.
Proof. induction 1; simpl; lia. Qed.

Lemma sum_Z_bind {A} (f : A → list Z) (l : list A) :
  sum_Z (l ≫= f) = sum_Z (sum_Z ∘ f <$> l).
Proof.
  induction l as [|x l IH]; [done|].
  cbn. rewrite sum_Z_app. unfold compose at 1. f_equal. exact IH.
Qed.

Lemma sum_indicator_0 `{EqDecision K} (k : K) (ks : list K) :
  k ∉ ks → sum_Z ((λ k', if decide (k = k') then 1 else 0) <$> ks) = 0.
Proof.
  induction ks as [|x ks IH]; [done|].
  intros [? ?]%not_elem_of_cons. csimpl. rewrite IH by done.
  by case_decide.
Qed.

(** Exactly one key of a duplicate-free list equals a key it contains. *)
Lemma sum_indicator `{EqDecision K} (k : K) (ks : list K) :
  NoDup ks → k ∈ ks →
  sum_Z ((λ k', if decide (k = k') then 1 else 0) <$> ks) = 1.
Proof.
  induction 1 as [|k' ks Hnotin Hnd IH]; [by intros ?%elem_of_nil|].
  intros Hin. csimpl. destruct (decide (k = k')) as [->|Hne].
  - rewrite sum_indicator_0 by done. lia.
  - apply elem_of_cons in Hin as [?|Hin]; [done|]. rewrite IH by done. lia.
Qed.

(** The groups of a GROUP BY partition the rows: their sizes add up. *)
Lemma group_sizes {A} `{EqDecision K} (key : A → K) (rows : list A)
    (ks : list K) :
  NoDup ks → (∀ r, r ∈ rows → key r ∈ ks) →
  sum_Z ((λ k, Z.of_nat (length (filter (λ r, key r = k) rows))) <$> ks)
  = Z.of_nat (length rows).
Proof.
  intros Hnd. induction rows as [|r rows IH]; intros Hks.
  - clear Hnd Hks. induction ks as [|k ks IHk]; [done|].
    csimpl in *. by rewrite IHk.
  - transitivity
      (sum_Z ((λ k, if decide (key r = k) then 1 else 0) <$> ks) +
       sum_Z ((λ k, Z.of_nat (length (filter (λ r, key r = k) rows)))
                <$> ks)).
    + clear IH Hks Hnd. induction ks as [|k ks IHk]; [done|].
      csimpl. rewrite filter_cons.
      destruct (decide (key r = k)); simpl length; lia.
    + rewrite sum_indicator, IH; [simpl length; lia| |done|].
      * intros r' Hr'. apply Hks. by right.
      * apply Hks. by left.
Qed.

Lemma group_by_sizes {A} `{EqDecision K} (key : A → K) (rows : list A) :
  sum_Z ((λ g, Z.of_nat (length g.2)) <$> group_by key rows)
  = Z.of_nat (length rows).
Proof.
  unfold group_by. rewrite <-list_fmap_compose.
  erewrite list_fmap_ext; [apply (group_sizes key rows)|..].
  - apply NoDup_remove_dups.
  - intros r Hr. apply elem_of_remove_dups, list_elem_of_fmap. eauto.
  - done.
Qed.

(** No group of a GROUP BY is empty. *)
Lemma group_by_nonempty {A} `{EqDecision K} (key : A → K) (rows : list A) g :
  g ∈ group_by key rows → g.2 ≠ [].
Proof.
  unfold group_by. intros (k & -> & Hk)%list_elem_of_fmap.
  apply elem_of_remove_dups, list_elem_of_fmap in Hk as (r & -> & Hr).
  simpl. intros Hnil.
  assert (r ∈ filter (λ r0, key r0 = key r) rows) as Hin
    by (by apply list_elem_of_filter).
  rewrite Hnil in Hin. by apply elem_of_nil in Hin.
Qed.

(** ** Label counts *)

Lemma label_count_bounds (rows : list Post) :
  0 ≤ label_count "EA_META" rows ∧ 0 ≤ label_count "EA_PROPER" rows ∧
  label_count "EA_META" rows + label_count "EA_PROPER" rows ≤ sql_count rows.
Proof.
  unfold label_count, sql_count.
  induction rows as [|p rows IH]; csimpl; [lia|].
  repeat case_bool_decide; try lia. congruence.
Qed.

Lemma sql_sum_case_nonempty (rows : list Post) :
  rows ≠ [] →
  ∃ m p, sql_sum_case "EA_META" rows = Some m ∧
         sql_sum_case "EA_PROPER" rows = Some p ∧
         0 ≤ m ∧ 0 ≤ p ∧ m + p ≤ sql_count rows.
Proof.
  intros Hne. destruct (label_count_bounds rows) as (? & ? & ?).
  exists (label_count "EA_META" rows), (label_count "EA_PROPER" rows).
  by destruct rows.
Qed.

Lemma sql_count_pos {A} (rows : list A) : 0 < sql_count rows ↔ rows ≠ [].
Proof. unfold sql_count. destruct rows; simpl; split; (done || lia). Qed.

(** ** The rows of one level *)

Global Instance count_desc_id_asc_total : Total count_desc_id_asc.
Proof. intros [] []; unfold count_desc_id_asc; simpl; lia. Qed.

Global Instance count_desc_id_asc_trans : Transitive count_desc_id_asc.
Proof. intros [] [] []; unfold count_desc_id_asc; simpl; lia. Qed.

Global Instance cluster_order_total : Total cluster_order.
Proof. intros r1 r2. apply (total count_desc_id_asc). Qed.

Global Instance cluster_order_trans : Transitive cluster_order.
Proof. intros r1 r2 r3. apply (transitivity (R := count_desc_id_asc)). Qed.

Section OneLevel.
Context (conn : Conn) (L : Z).

Lemma cluster_result_group r :
  r ∈ cluster_details_result conn L →
  ∃ g, g.2 ≠ [] ∧ r = cluster_row L g.
Proof.
  unfold cluster_details_result, order_by. rewrite merge_sort_Permutation.
  intros (g & -> & Hg)%list_elem_of_fmap. exists g. split; [|done].
  by apply group_by_nonempty in Hg.
Qed.

Lemma cluster_result_level r :
  r ∈ cluster_details_result conn L → ClusterRow.level r = L.
Proof. by intros (g & _ & ->)%cluster_result_group. Qed.

Lemma cluster_result_sorted :
  StronglySorted cluster_order (cluster_details_result conn L).
Proof.
  unfold cluster_details_result, order_by.
  apply (StronglySorted_merge_sort cluster_order).
Qed.

(** The posts of the clusters of a level add up to the posts of the
    level. *)
Lemma cluster_result_sum :
  sum_Z (ClusterRow.post_count <$> cluster_details_result conn L)
  = LevelRow.post_count (level_overview_result conn L).
Proof.
  unfold cluster_details_result, order_by. rewrite merge_sort_Permutation.
  rewrite <-list_fmap_compose. unfold cluster_groups.
  etrans; [|etrans; [apply (group_by_sizes
    (λ r, (r.1, select_name
                  (column_exists conn "fellowship_mvp" (name_col L)) L r))
    (assigned L (fellowship_mvp conn)))|]].
  - f_equal. apply list_fmap_ext. intros i g _. simpl.
    unfold sql_count. by rewrite length_fmap.
  - simpl. unfold sql_count. by rewrite length_fmap.
Qed.
End OneLevel.

(** ** Filters *)

Section Filters.
Context {A : Type} (P Q : A → Prop) `{!∀ x, Decision (P x)}
  `{!∀ x, Decision (Q x)}.

Lemma filter_ext_in (l : list A) :
  (∀ x, x ∈ l → P x ↔ Q x) → filter P l = filter Q l.
Proof.
  induction l as [|x l IH]; intros HPQ; [done|].
  rewrite !filter_cons, IH by (intros y Hy; apply HPQ; by right).
  assert (P x ↔ Q x) by (apply HPQ; left).
  destruct (decide (P x)), (decide (Q x)); tauto.
Qed.

Lemma filter_all (l : list A) : (∀ x, x ∈ l → P x) → filter P l = l.
Proof.
  induction l as [|x l IH]; intros HP; [done|].
  rewrite filter_cons_True, IH; [done| |apply HP; left].
  intros y Hy. apply HP. by right.
Qed.

Lemma filter_none (l : list A) : (∀ x, x ∈ l → ¬ P x) → filter P l = [].
Proof.
  induction l as [|x l IH]; intros HP; [done|].
  rewrite filter_cons_False, IH; [done| |apply HP; left].
  intros y Hy. apply HP. by right.
Qed.

Lemma filter_swap (l : list A) :
  filter P (filter Q l) = filter Q (filter P l).
Proof.
  induction l as [|x l IH]; [done|].
  rewrite !filter_cons.
  destruct (decide (P x)), (decide (Q x));
    rewrite ?filter_cons; repeat case_decide; try tauto; by rewrite IH.
Qed.
End Filters.

(** ** The artifacts, level by level *)

Section Artifacts.
Context (conn : Conn).

Lemma cluster_rows_at_bind L (ls : list Z) :
  cluster_rows_at L (ls ≫= cluster_details_result conn)
  = filter (λ level, level = L) ls ≫= cluster_details_result conn.
Proof.
  unfold cluster_rows_at. induction ls as [|l ls IH]; [done|].
  cbn [mbind list_bind]. rewrite filter_app, filter_cons, IH.
  fold (mbind (M := list) (cluster_details_result conn)).
  destruct (decide (l = L)) as [->|Hne].
  - cbn [mbind list_bind]. f_equal.
    apply (filter_all (λ r, ClusterRow.level r = L)).
    intros r. apply cluster_result_level.
  - rewrite (filter_none (λ r, ClusterRow.level r = L)); [done|].
    intros r Hr%cluster_result_level. congruence.
Qed.

Lemma level_rows_at_fmap L (ls : list Z) :
  level_rows_at L (level_overview_result conn <$> ls)
  = level_overview_result conn <$> filter (λ level, level = L) ls.
Proof.
  unfold level_rows_at. induction ls as [|l ls IH]; [done|].
  csimpl. rewrite !filter_cons, IH. simpl.
  by destruct (decide (l = L)).
Qed.

Lemma supported_listed L levels :
  (listed L levels ≤ 1)%nat →
  filter (λ level, level = L) (supported conn levels) = [] ∨
  filter (λ level, level = L) (supported conn levels) = [L].
Proof.
  unfold listed, supported. rewrite filter_swap.
  intros Hlen.
  destruct (filter (λ level, level = L) levels) as [|l [|l' ls]] eqn:Hf;
    [by left| |simpl in Hlen; lia].
  assert (l = L) as ->.
  { assert (l ∈ filter (λ level, level = L) levels) as Hl
      by (rewrite Hf; left).
    by apply list_elem_of_filter in Hl as [? _]. }
  rewrite filter_cons. case_decide; [by right|by left].
Qed.

Lemma supported_without L levels :
  column_exists conn "fellowship_mvp" (id_col L) = false →
  supported conn (filter (λ level, level ≠ L) levels) = supported conn levels.
Proof.
  intros HL. induction levels as [|l levels IH]; [done|].
  rewrite filter_cons. destruct (decide (l ≠ L)) as [Hne|Heq].
  - by rewrite !supported_cons, IH.
  - apply dec_stable in Heq as ->. by rewrite supported_cons, HL.
Qed.

Lemma supported_exists L levels :
  L ∈ supported conn levels →
  column_exists conn "fellowship_mvp" (id_col L) = true.
Proof.
  unfold supported. intros [H _]%list_elem_of_filter.
  by apply Is_true_true.
Qed.
End Artifacts.

(** ** Per-cluster counts against the per-level count *)

Lemma cluster_sum_general conn (ls : list Z) :
  sum_Z (ClusterRow.post_count <$> (ls ≫= cluster_details_result conn))
  = sum_Z (LevelRow.post_count <$> (level_overview_result conn <$> ls)).
Proof.
  induction ls as [|l ls IH]; [done|].
  cbn [mbind list_bind]. fold (mbind (M := list) (cluster_details_result conn)).
  rewrite fmap_app, sum_Z_app, IH, cluster_result_sum. done.
Qed.

(** C1, as amended: the per-cluster post counts of a level add up to
    the post counts of the level-summary rows of that level; for a level
    that is listed once among the configured levels this is the post
    count of its level-summary row. *)
Theorem cluster_counts_add_up conn levels lrows crows L :
  level_overview_rows conn levels = Ok lrows →
  cluster_details_rows conn levels = Ok crows →
  sum_Z (ClusterRow.post_count <$> cluster_rows_at L crows)
  = sum_Z (LevelRow.post_count <$> level_rows_at L lrows)
  ∧ (listed L levels = 1%nat →
     ∀ r, r ∈ lrows → LevelRow.level r = L →
       sum_Z (ClusterRow.post_count <$> cluster_rows_at L crows)
       = LevelRow.post_count r).
Proof.
  intros ->%level_overview_rows_Ok ->%cluster_details_rows_Ok.
  rewrite cluster_rows_at_bind, level_rows_at_fmap.
  split; [apply cluster_sum_general|].
  intros Hone r Hr HL. rewrite cluster_sum_general.
  assert (r ∈ level_rows_at L (level_overview_result conn <$>
                                 supported conn levels)) as Hat
    by (by apply list_elem_of_filter).
  rewrite level_rows_at_fmap in Hat.
  destruct (supported_listed conn L levels) as [Hs|Hs]; [lia|..];
    rewrite Hs in Hat |- *.
  - by apply elem_of_nil in Hat.
  - apply list_elem_of_singleton in Hat as ->. simpl. lia.
Qed.

Lemma cluster_counts_add_up_witness :
  sum_Z (ClusterRow.post_count <$>
           cluster_rows_at 5 (cluster_details_result example_db 5))
  = LevelRow.post_count (level_overview_result example_db 5).
Proof.
  refine (proj2 (cluster_counts_add_up example_db [5; 12]
                   [level_overview_result example_db 5]
                   (cluster_details_result example_db 5) 5 _ _)
            _ (level_overview_result example_db 5) _ _).
  - reflexivity.
  - reflexivity.
  - reflexivity.
  - left.
  - reflexivity.
Defined.

(** C1 as stated fails when a level is listed twice: with levels 5, 5
    over the example database the cluster rows of level 5 add up to 6,
    each of the two level rows counts 3. *)
Lemma cluster_counts_listed_twice :
  ∃ lrows crows r,
    level_overview_rows example_db [5; 5] = Ok lrows ∧
    cluster_details_rows example_db [5; 5] = Ok crows ∧
    r ∈ lrows ∧ 0 < LevelRow.post_count r ∧
    sum_Z (ClusterRow.post_count <$>
             cluster_rows_at (LevelRow.level r) crows)
    ≠ LevelRow.post_count r.
Proof.
  eexists _, _, (level_overview_result example_db 5).
  split; [reflexivity|]. split; [reflexivity|].
  split; [left|]. split; [done|]. vm_compute. discriminate.
Qed.

(** ** Order of the cluster rows *)

(** C4, as amended: the cluster-summary artifact is the concatenation,
    in configured order, of one block per supported level; every block
    is sorted by post count descending, ties by cluster id ascending;
    so are the rows of any level listed at most once. *)
Theorem cluster_rows_sorted conn levels crows :
  cluster_details_rows conn levels = Ok crows →
  crows = supported conn levels ≫= cluster_details_result conn ∧
  (∀ L, StronglySorted cluster_order (cluster_details_result conn L)) ∧
  (∀ L, (listed L levels ≤ 1)%nat →
        StronglySorted cluster_order (cluster_rows_at L crows)).
Proof.
  intros ->%cluster_details_rows_Ok.
  split; [done|]. split; [intros L; apply cluster_result_sorted|].
  intros L HL. rewrite cluster_rows_at_bind.
  destruct (supported_listed conn L levels HL) as [->| ->]; [constructor|].
  cbn. rewrite app_nil_r. apply cluster_result_sorted.
Qed.

Lemma cluster_rows_sorted_witness :
  StronglySorted cluster_order
    (cluster_rows_at 5 (cluster_details_result example_db 5)).
Proof.
  refine (proj2 (proj2 (cluster_rows_sorted example_db [5; 12]
                          (cluster_details_result example_db 5) _)) 5 _).
  - reflexivity.
  - vm_compute. lia.
Defined.

(** C4 as stated fails when a level is listed twice: the rows of level
    5 are then two sorted blocks one after the other, and the smaller
    cluster of the first block precedes the larger one of the second. *)
Lemma cluster_rows_listed_twice :
  ∃ crows,
    cluster_details_rows example_db [5; 5] = Ok crows ∧
    ¬ Sorted cluster_order (cluster_rows_at 5 crows).
Proof.
  eexists. split; [reflexivity|].
  intros Hs. apply Sorted_inv in Hs as [Hs _].
  apply Sorted_inv in Hs as [_ Hs]. apply HdRel_inv in Hs.
  vm_compute in Hs. destruct Hs as [Hs|[Hs _]]; discriminate.
Qed.

(** ** Label counts of the rows *)

Lemma level_result_counts conn L :
  let r := level_overview_result conn L in
  (0 < LevelRow.post_count r ∧
   counts_within (LevelRow.post_count r) (LevelRow.meta_posts r)
     (LevelRow.proper_posts r))
  ∨ (LevelRow.post_count r = 0 ∧ LevelRow.meta_posts r = None ∧
     LevelRow.proper_posts r = None).
Proof.
  simpl. destruct (snd <$> assigned L (fellowship_mvp conn)) as [|p pop] eqn:E.
  - by right.
  - left. split; [by apply sql_count_pos|].
    destruct (sql_sum_case_nonempty (p :: pop)) as (m & q & ? & ? & ? & ? & ?);
      [done|].
    by exists m, q.
Qed.

Lemma cluster_result_counts conn L r :
  r ∈ cluster_details_result conn L →
  0 < ClusterRow.post_count r ∧
  counts_within (ClusterRow.post_count r) (ClusterRow.meta_posts r)
    (ClusterRow.proper_posts r).
Proof.
  intros (g & Hg & ->)%cluster_result_group. simpl.
  assert (snd <$> g.2 ≠ []) as Hne by (by destruct (g.2)).
  split; [by apply sql_count_pos|].
  destruct (sql_sum_case_nonempty _ Hne) as (m & q & ? & ? & ? & ? & ?).
  by exists m, q.
Qed.

(** Where the label counts are there: every cluster-summary row, and
    every level-summary row with a positive post count, carries both
    label counts, and they add up to at most its post count. A
    level-summary row whose post count is 0 carries none. *)
Theorem label_counts_within conn levels :
  (∀ crows, cluster_details_rows conn levels = Ok crows →
     ∀ r, r ∈ crows →
       counts_within (ClusterRow.post_count r) (ClusterRow.meta_posts r)
         (ClusterRow.proper_posts r)) ∧
  (∀ lrows, level_overview_rows conn levels = Ok lrows →
     ∀ r, r ∈ lrows →
       (0 < LevelRow.post_count r ∧
        counts_within (LevelRow.post_count r) (LevelRow.meta_posts r)
          (LevelRow.proper_posts r))
       ∨ (LevelRow.post_count r = 0 ∧ LevelRow.meta_posts r = None ∧
          LevelRow.proper_posts r = None)).
Proof.
  split.
  - intros crows ->%cluster_details_rows_Ok r
      (L & Hr & _)%list_elem_of_bind.
    by apply cluster_result_counts in Hr as [_ ?].
  - intros lrows ->%level_overview_rows_Ok r
      (L & -> & _)%list_elem_of_fmap.
    apply level_result_counts.
Qed.

Lemma label_counts_within_witness :
  counts_within 2 (Some 1) (Some 1) ∧
  (0 < 3 ∧ counts_within 3 (Some 1) (Some 2) ∨
   3 = 0 ∧ Some 1 = @None Z ∧ Some 2 = @None Z).
Proof.
  split.
  - refine (proj1 (label_counts_within example_db [5])
              (cluster_details_result example_db 5) _
              {| ClusterRow.level := 5; ClusterRow.cluster_id := 1;
                 ClusterRow.cluster_name := "Cluster 1";
                 ClusterRow.post_count := 2;
                 ClusterRow.meta_posts := Some 1;
                 ClusterRow.proper_posts := Some 1;
                 ClusterRow.avg_base_score := Some (15 # 1);
                 ClusterRow.stddev_base_score := Some (SqrtOf (50 # 1));
                 ClusterRow.avg_score := Some (15 # 1);
                 ClusterRow.stddev_score := Some (SqrtOf (50 # 1)) |} _).
    + reflexivity.
    + left.
  - refine (proj2 (label_counts_within example_db [5])
              [level_overview_result example_db 5] _
              (level_overview_result example_db 5) _).
    + reflexivity.
    + left.
Defined.

(** C3: the code on [sparse_db] at level 30, whose id column exists
    while no post has a cluster there. The level-summary row of level
    30 has post count 0 and no label counts at all: the two sums over no
    rows are NULL, not 0, so the row does not satisfy
    meta_posts + proper_posts <= post_count; and the overview of the
    viewer, which guards against a post count of 0, raises on the empty
    cells of that row. *)
Theorem label_counts_null_at_empty_level :
  ∃ lrows r,
    level_overview_rows sparse_db [30] = Ok lrows ∧ r ∈ lrows ∧
    LevelRow.post_count r = 0 ∧
    LevelRow.meta_posts r = None ∧ LevelRow.proper_posts r = None ∧
    ¬ counts_within (LevelRow.post_count r) (LevelRow.meta_posts r)
        (LevelRow.proper_posts r) ∧
    Viewer.overview r = Raise ValueError.
Proof.
  eexists _, (level_overview_result sparse_db 30).
  split; [reflexivity|]. split; [left|]. split; [reflexivity|].
  split; [reflexivity|]. split; [reflexivity|].
  split; [|reflexivity]. intros (m & p & Hm & _). discriminate Hm.
Qed.

(** ** Totals across levels *)

Lemma assigned_posts L (posts : list Post) :
  snd <$> assigned L posts = filter (λ p, is_Some (ea_cluster p !! L)) posts.
Proof.
  unfold assigned. induction posts as [|p posts IH]; [done|].
  rewrite filter_cons. csimpl. destruct (ea_cluster p !! L) as [c|] eqn:E.
  - rewrite decide_True by eauto. csimpl. by rewrite IH.
  - rewrite decide_False by (by intros [? ?]). exact IH.
Qed.

(** When the totals do agree: two level-summary rows agree on
    post_count, meta_posts and proper_posts (and on the four score
    statistics) whenever the same posts have a cluster at both levels. *)
Theorem level_totals_agree conn levels lrows r1 r2 :
  level_overview_rows conn levels = Ok lrows →
  r1 ∈ lrows → r2 ∈ lrows →
  (∀ p, p ∈ fellowship_mvp conn →
     is_Some (ea_cluster p !! LevelRow.level r1) ↔
     is_Some (ea_cluster p !! LevelRow.level r2)) →
  LevelRow.post_count r1 = LevelRow.post_count r2 ∧
  LevelRow.meta_posts r1 = LevelRow.meta_posts r2 ∧
  LevelRow.proper_posts r1 = LevelRow.proper_posts r2 ∧
  LevelRow.avg_base_score r1 = LevelRow.avg_base_score r2 ∧
  LevelRow.stddev_base_score r1 = LevelRow.stddev_base_score r2 ∧
  LevelRow.avg_score r1 = LevelRow.avg_score r2 ∧
  LevelRow.stddev_score r1 = LevelRow.stddev_score r2.
Proof.
  intros ->%level_overview_rows_Ok (L1 & -> & _)%list_elem_of_fmap
    (L2 & -> & _)%list_elem_of_fmap Hsame.
  unfold level_overview_result, level_overview_row in *. simpl in *.
  rewrite !assigned_posts.
  by rewrite (filter_ext_in _ _ _ Hsame).
Qed.

Lemma level_totals_agree_witness :
  LevelRow.post_count (level_overview_result dense_db 5)
  = LevelRow.post_count (level_overview_result dense_db 12).
Proof.
  refine (proj1 (level_totals_agree dense_db [5; 12]
                   [level_overview_result dense_db 5;
                    level_overview_result dense_db 12]
                   (level_overview_result dense_db 5)
                   (level_overview_result dense_db 12) _ _ _ _)).
  - reflexivity.
  - left.
  - right; left.
  - apply Forall_forall. apply (bool_decide_unpack _). vm_compute. exact I.
Defined.

(** C2: the code on [sparse_db] with the levels 5 and 12, where post
    [b] has a cluster at level 5 and none at level 12. The level-summary
    artifact holds one row per level; the two rows count 3 and 2 posts
    and 1 and 0 posts labelled EA_PROPER, and the overview of the
    viewer, which takes the first row for the totals of every level,
    shows the 3 posts of level 5. *)
Theorem level_totals_differ :
  ∃ r1 r2 crows,
    level_overview_rows sparse_db [5; 12] = Ok [r1; r2] ∧
    cluster_details_rows sparse_db [5; 12] = Ok crows ∧
    LevelRow.level r1 = 5 ∧ LevelRow.level r2 = 12 ∧
    LevelRow.post_count r1 = 3 ∧ LevelRow.post_count r2 = 2 ∧
    LevelRow.meta_posts r1 = Some 1 ∧ LevelRow.meta_posts r2 = Some 1 ∧
    LevelRow.proper_posts r1 = Some 1 ∧ LevelRow.proper_posts r2 = Some 0 ∧
    ∃ avg_base std_base avg_score std_score,
      (Viewer.main (example_viewer (Some [r1; r2]) (Some crows) None)).1
        !! 2%nat
      = Some (Viewer.Overview 3 1 1 avg_base std_base avg_score std_score).
Proof.
  eexists (level_overview_result sparse_db 5),
    (level_overview_result sparse_db 12), _.
  split; [reflexivity|]. split; [reflexivity|].
  do 8 (split; [reflexivity|]).
  eexists _, _, _, _. reflexivity.
Qed.

(** ** Levels without an id column *)

(** C8: a configured level whose id column does not exist is passed
    over. Both export loops behave as if the level were not listed, so
    no row of either artifact carries it and the other levels are
    treated as usual; [summarize_level] prints the skip notice only, no
    section, and does not raise. *)
Theorem missing_level_skipped conn levels L :
  column_exists conn "fellowship_mvp" (id_col L) = false →
  level_overview_rows conn levels
    = level_overview_rows conn (filter (λ level, level ≠ L) levels) ∧
  cluster_details_rows conn levels
    = cluster_details_rows conn (filter (λ level, level ≠ L) levels) ∧
  (∀ lrows, level_overview_rows conn levels = Ok lrows →
            level_rows_at L lrows = []) ∧
  (∀ crows, cluster_details_rows conn levels = Ok crows →
            cluster_rows_at L crows = []) ∧
  (∀ classification_filter s,
     summarize_level conn L classification_filter s =
       (Ok (),
        {| stdout := stdout s ++
             [Text ("[skip] " +:+ pretty L +:+
                    "-cluster columns not found (missing " +:+ id_col L +:+
                    ")")];
           files := files s; conn_open := conn_open s |})).
Proof.
  intros HL.
  assert (filter (λ level, level = L) (supported conn levels) = []) as Hnone.
  { apply (filter_none (λ level, level = L)).
    intros l Hl%supported_exists ->. congruence. }
  repeat split.
  - by rewrite !level_overview_rows_eq, supported_without.
  - by rewrite !cluster_details_rows_eq, supported_without.
  - intros lrows ->%level_overview_rows_Ok.
    by rewrite level_rows_at_fmap, Hnone.
  - intros crows ->%cluster_details_rows_Ok.
    by rewrite cluster_rows_at_bind, Hnone.
  - intros f s. unfold summarize_level. by rewrite HL.
Qed.

Lemma missing_level_skipped_witness :
  level_overview_rows example_db [5; 12] = level_overview_rows example_db [5].
Proof.
  refine (proj1 (missing_level_skipped example_db [5; 12] 12 _)).
  reflexivity.
Defined.

(** ** Steps that only print *)

Lemma log_nil s : log s [] = s.
Proof. destruct s. unfold log. simpl. by rewrite app_nil_r. Qed.

Lemma log_log s out1 out2 : log (log s out1) out2 = log s (out1 ++ out2).
Proof. unfold log. simpl. by rewrite app_assoc. Qed.

Lemma prints_only_ret : prints_only (mret ()) (Ok ()).
Proof. intros s. exists []. by rewrite log_nil. Qed.

Lemma prints_only_print l : prints_only (print l) (Ok ()).
Proof. intros s. by exists [l]. Qed.

Lemma prints_only_lift_raise {A} e (k : A → M unit) :
  prints_only (lift (Raise e) ≫= k) (Raise e).
Proof. intros s. exists []. by rewrite log_nil. Qed.

Lemma prints_only_seq m1 m2 r :
  prints_only m1 (Ok ()) → prints_only m2 r → prints_only (m1;; m2) r.
Proof.
  intros H1 H2 s. destruct (H1 s) as [out1 E1].
  destruct (H2 (log s out1)) as [out2 E2].
  exists (out1 ++ out2). unfold mbind, M_bind. by rewrite E1, E2, log_log.
Qed.

Lemma prints_only_seq_raise m1 m2 e :
  prints_only m1 (Raise e) → prints_only (m1;; m2) (Raise e).
Proof.
  intros H1 s. destruct (H1 s) as [out1 E1].
  exists out1. unfold mbind, M_bind. by rewrite E1.
Qed.

Lemma prints_only_header title : prints_only (print_header title) (Ok ()).
Proof.
  unfold print_header.
  repeat (apply prints_only_seq; [apply prints_only_print|]).
  apply prints_only_print.
Qed.

Lemma prints_only_for_each_print (ls : list console_line) :
  prints_only (for_each ls print) (Ok ()).
Proof.
  induction ls as [|l ls IH]; [apply prints_only_ret|].
  simpl. apply prints_only_seq; [apply prints_only_print|exact IH].
Qed.

Lemma summarize_prints conn level classification_filter :
  prints_only (summarize_level conn level classification_filter)
    (summarize_status conn level).
Proof.
  unfold summarize_level, summarize_status.
  destruct (column_exists conn "fellowship_mvp" (id_col level)); simpl negb;
    cbv iota; [|apply prints_only_print].
  unfold summary_query.
  generalize (check_columns conn ["base_score"]). intros [[]|e];
    [|apply prints_only_lift_raise].
  match goal with |- prints_only (lift (Ok ();; Ok ?rows) ≫= _) _ =>
    generalize rows end.
  intros rows. intros s.
  change ((lift (Ok ();; Ok rows) ≫= ?k) s) with (k rows s).
  revert s. apply prints_only_seq; [apply prints_only_print|].
  apply prints_only_seq; [apply prints_only_print|].
  destruct rows as [|row rows].
  - apply prints_only_seq; apply prints_only_print.
  - apply prints_only_seq; [|apply prints_only_print].
    generalize (row :: rows). clear. intros rows.
    induction rows as [|r rows IH]; [apply prints_only_ret|].
    simpl. apply prints_only_seq; [apply prints_only_print|exact IH].
Qed.

Lemma summaries_print conn levels classification_filter :
  prints_only
    (for_each levels (λ level, summarize_level conn level classification_filter))
    (summaries_status conn levels).
Proof.
  induction levels as [|level levels IH]; [apply prints_only_ret|].
  simpl. pose proof (summarize_prints conn level classification_filter) as H.
  destruct (summarize_status conn level) as [[]|e].
  - by apply prints_only_seq.
  - by apply prints_only_seq_raise.
Qed.

Lemma seq_ok {A} m (k : () → M A) :
  prints_only m (Ok ()) → ∀ s, ∃ out, (m ≫= k) s = k () (log s out).
Proof.
  intros H s. destruct (H s) as [out E]. exists out.
  unfold mbind, M_bind. by rewrite E.
Qed.

Lemma seq_raise {A} m (k : () → M A) e :
  prints_only m (Raise e) → ∀ s, ∃ out, (m ≫= k) s = (Raise e, log s out).
Proof.
  intros H s. destruct (H s) as [out E]. exists out.
  unfold mbind, M_bind. by rewrite E.
Qed.

(** Runs the first step of the sequence the goal applies to a state,
    given that the step only prints. *)
Ltac run_ok H :=
  match goal with
  | |- context [(?m ≫= ?k) ?s] =>
      let out := fresh "out" in
      destruct (seq_ok m k H s) as [out ->]; cbv beta
  end.

Ltac run_raise H :=
  match goal with
  | |- context [(?m ≫= ?k) ?s] =>
      let out := fresh "out" in
      destruct (seq_raise m k _ H s) as [out ->]; cbv beta
  end.

Lemma prints_console m r : prints_only m r → console_only m.
Proof. intros H s. destruct (H s) as [out E]. by exists r, out. Qed.

Lemma console_only_for_each {A} (l : list A) (body : A → M unit) :
  (∀ x, console_only (body x)) → console_only (for_each l body).
Proof.
  intros Hbody. induction l as [|x l IH]; [apply (prints_console _ _ prints_only_ret)|].
  intros s. simpl. unfold mbind, M_bind.
  destruct (Hbody x s) as ([[]|e] & out & ->); [|by exists (Raise e), out].
  destruct (IH (log s out)) as (r & out' & ->).
  exists r, (out ++ out'). by rewrite log_log.
Qed.

Lemma meta_vs_proper_prints conn :
  prints_only
    (if column_exists conn "fellowship_mvp" "ea_classification" then
       print_header "EA Meta vs Proper Summary (base_score and score)";;
       rows ← lift (meta_vs_proper_query conn);
       for_each rows print;;
       print (Text "")
     else mret ())
    (if column_exists conn "fellowship_mvp" "ea_classification"
     then meta_vs_proper_query conn;; Ok ()
     else Ok ()).
Proof.
  destruct (column_exists conn "fellowship_mvp" "ea_classification");
    [|apply prints_only_ret].
  unfold meta_vs_proper_query.
  generalize (check_columns conn ["base_score"; "score"]). intros [[]|e].
  - apply prints_only_seq; [apply prints_only_header|].
    match goal with |- prints_only (lift (Ok ();; Ok ?rows) ≫= _) _ =>
      generalize rows end.
    intros rows s.
    change ((lift (Ok ();; Ok rows) ≫= ?k) s) with (k rows s).
    revert s.
    apply prints_only_seq;
      [apply prints_only_for_each_print|apply prints_only_print].
  - apply (prints_only_seq _ _ (Raise e)); [apply prints_only_header|].
    apply prints_only_lift_raise.
Qed.

Lemma breakdown_console conn levels classification_filter :
  console_only
    (let '(has_class, values) := classification_values conn in
     if has_class && negb (opt_truthy classification_filter) then
       print_header "Breakdown by EA Classification";;
       for_each values (λ cls,
         for_each levels (λ level, summarize_level conn level (Some cls)))
     else mret ()).
Proof.
  destruct (classification_values conn) as [has_class values].
  destruct (has_class && negb (opt_truthy classification_filter));
    [|apply (prints_console _ _ prints_only_ret)].
  intros s. run_ok (prints_only_header "Breakdown by EA Classification").
  edestruct (console_only_for_each values) as (r & out' & ->).
  { intros cls. eapply prints_console, summaries_print. }
  exists r, (out ++ out'). by rewrite log_log.
Qed.

(** What [main_body] leaves in the files. *)
Lemma main_body_files h conn levels classification_filter s :
  files (main_body h conn levels classification_filter s).2
  = exported h conn levels (files s).
Proof.
  unfold main_body, exported, report_status. fold (out_dir h).
  pose proof (meta_vs_proper_prints conn) as H1.
  destruct (if column_exists conn "fellowship_mvp" "ea_classification"
            then meta_vs_proper_query conn;; Ok () else Ok ()) as [[]|e];
    [run_ok H1|by run_raise H1].
  run_ok (prints_only_header "EA Forum Cluster Score Summary").
  pose proof (summaries_print conn levels classification_filter) as H3.
  cbn [mbind result_bind].
  destruct (summaries_status conn levels) as [[]|e];
    [run_ok H3|by run_raise H3].
  rewrite !log_log. generalize (out ++ out0 ++ out1). clear. intros out.
  cbv zeta. unfold export_level_overview_csv, export_cluster_details_csv.
  unfold mbind at 1, M_bind at 1. unfold mbind at 1, M_bind at 1.
  unfold lift at 1.
  destruct (level_overview_rows conn levels) as [lrows|e]; [|done].
  unfold write_file at 1.
  unfold mbind at 1, M_bind at 1. unfold mbind at 1, M_bind at 1.
  unfold lift at 1.
  destruct (cluster_details_rows conn levels) as [crows|e]; [|done].
  unfold write_file at 1.
  do 3 (match goal with |- context [(print ?l ≫= _) _] =>
          run_ok (prints_only_print l) end).
  edestruct (breakdown_console conn levels classification_filter)
    as (r & o4 & ->).
  done.
Qed.

(** What a run of the aggregator leaves in the files. *)
Lemma main_with_files int h s :
  files (main_with int h s).2 =
    match database h with
    | Some conn =>
        exported h conn
          (parse_levels_with int (Py.strip (getenv h "CLUSTER_LEVELS")))
          (files s)
    | None => files s
    end.
Proof.
  unfold main_with, connect_db. destruct (database h) as [conn|]; [|done].
  generalize (parse_levels_with int (Py.strip (getenv h "CLUSTER_LEVELS"))).
  intros levels.
  unfold mbind, M_bind, set_conn_open, mret, M_ret, finally. simpl.
  match goal with |- context [main_body h conn ?ls ?f ?s1] =>
    pose proof (main_body_files h conn ls f s1) as Hbody;
    destruct (main_body h conn ls f s1) as [r s2]
  end.
  by destruct r.
Qed.

Lemma main_files h s :
  files (main h s).2 =
    match database h with
    | Some conn =>
        exported h conn
          (parse_levels (Py.strip (getenv h "CLUSTER_LEVELS"))) (files s)
    | None => files s
    end.
Proof. exact (main_with_files Py.int h s). Qed.

(** ** The connection *)

(** C6: when the connection cannot be made, the run ends with the
    connection error in the very state it started from: nothing was
    printed, neither export ran, and no file was created or changed. *)
Theorem connection_failure_aborts h s :
  database h = None →
  main h s = (Raise OperationalError, s).
Proof. intros Hdb. unfold main, main_with, connect_db. by rewrite Hdb. Qed.

(** ** The classification filter *)

(** C9: two runs over the same database from the same files, on hosts
    that differ at most in the EA_CLASSIFICATION_FILTER setting, leave
    the same files. *)
Theorem filter_does_not_reach_artifacts h1 h2 s :
  database h1 = database h2 →
  script_dir h1 = script_dir h2 →
  resolve h1 = resolve h2 →
  (∀ name, name ≠ "EA_CLASSIFICATION_FILTER" →
           environ h1 !! name = environ h2 !! name) →
  files (main h1 s).2 = files (main h2 s).2.
Proof.
  intros Hdb Hdir Hres Henv. rewrite !main_files, <-Hdb.
  destruct (database h1) as [conn|]; [|done].
  unfold exported, out_dir, getenv.
  by rewrite <-!Henv, Hdir, Hres by done.
Qed.

(** ** The configured levels *)



(** ** The viewer: posts of a cluster *)

Section NullsLast.
Context {A : Type} (leb : A → A → bool).
Context (leb_total : ∀ a b, leb a b = true ∨ leb b a = true).
Context (leb_trans : ∀ a b c, leb a b = true → leb b c = true →
                              leb a c = true).

Lemma desc_nulls_last_total x y :
  Viewer.desc_nulls_last leb x y ∨ Viewer.desc_nulls_last leb y x.
Proof.
  destruct x as [a|], y as [b|]; simpl; auto.
  destruct (leb_total a b) as [->| ->]; simpl; auto.
Qed.

Lemma desc_nulls_last_trans x y z :
  Viewer.desc_nulls_last leb x y → Viewer.desc_nulls_last leb y z →
  Viewer.desc_nulls_last leb x z.
Proof.
  destruct x as [a|], y as [b|], z as [c|]; simpl; try done.
  intros H1%Is_true_true H2%Is_true_true. apply Is_true_true. eauto.
Qed.
End NullsLast.

Lemma Qle_bool_total a b : Qle_bool a b = true ∨ Qle_bool b a = true.
Proof.
  rewrite !Qle_bool_iff. destruct (Qlt_le_dec a b) as [?%Qlt_le_weak|?]; auto.
Qed.

Lemma Qle_bool_trans a b c :
  Qle_bool a b = true → Qle_bool b c = true → Qle_bool a c = true.
Proof. rewrite !Qle_bool_iff. apply Qle_trans. Qed.

Lemma Zleb_total a b : (a <=? b) = true ∨ (b <=? a) = true.
Proof. rewrite !Z.leb_le. lia. Qed.

Lemma Zleb_trans a b c :
  (a <=? b) = true → (b <=? c) = true → (a <=? c) = true.
Proof. rewrite !Z.leb_le. lia. Qed.

Global Instance post_order_total sort_by : Total (Viewer.post_order sort_by).
Proof.
  intros p q. unfold Viewer.post_order, Viewer.post_leb. case_bool_decide.
  - apply desc_nulls_last_total, Qle_bool_total.
  - apply desc_nulls_last_total, Zleb_total.
Qed.

Global Instance post_order_trans sort_by :
  Transitive (Viewer.post_order sort_by).
Proof.
  intros p q r. unfold Viewer.post_order, Viewer.post_leb. case_bool_decide.
  - apply desc_nulls_last_trans, Qle_bool_trans.
  - apply desc_nulls_last_trans, Zleb_trans.
Qed.

(** What [fetch_cluster_posts] returns once the statement went through
    with [rows]: these rows when every base score in them can be cast,
    the empty frame otherwise. *)
Lemma fetch_cluster_posts_rows h conn level cluster_id sort_by rows :
  Viewer.connect_db h = Some conn →
  Viewer.cluster_posts_query conn level cluster_id sort_by = Ok rows →
  Viewer.fetch_cluster_posts h level cluster_id sort_by
  = if forallb (from_option Viewer.fits_Int64 true) (base_score <$> rows)
    then rows else [].
Proof.
  intros Hconn Hq. unfold Viewer.fetch_cluster_posts.
  rewrite Hconn, Hq. cbn [mbind result_bind]. unfold Viewer.astype_Int64.
  by destruct (forallb _ _).
Qed.

(** X25. [fetch_cluster_posts] in general. It returns at most 500 posts, and
    the empty frame when no connection can be made or the statement
    raises. When the statement goes through, its rows are the first 500
    of the posts whose cluster id at the level is [cluster_id], taken
    in descending order of score when [sort_by] is "score" and of
    publication time otherwise, NULLs last; the function returns these
    rows when the base score of each of them can be cast to a 64-bit
    integer, and the empty frame when one of them cannot. *)
Theorem fetch_cluster_posts_spec h level cluster_id sort_by :
  let res := Viewer.fetch_cluster_posts h level cluster_id sort_by in
  (length res ≤ 500)%nat ∧
  (Viewer.connect_db h = None → res = []) ∧
  (∀ conn e, Viewer.connect_db h = Some conn →
     Viewer.cluster_posts_query conn level cluster_id sort_by = Raise e →
     res = []) ∧
  (∀ conn rows, Viewer.connect_db h = Some conn →
     Viewer.cluster_posts_query conn level cluster_id sort_by = Ok rows →
     let matching :=
       filter (λ p, ea_cluster p !! level = Some cluster_id)
         (fellowship_mvp conn) in
     (∃ sorted,
        sorted ≡ₚ matching ∧ rows = take 500 sorted ∧
        (sort_by = "score" →
         StronglySorted
           (λ p q, Viewer.desc_nulls_last Qle_bool (score p) (score q))
           sorted) ∧
        (sort_by ≠ "score" →
         StronglySorted
           (λ p q, Viewer.desc_nulls_last Z.leb (posted_at p) (posted_at q))
           sorted) ∧
        (∀ p, p ∈ rows → ea_cluster p !! level = Some cluster_id) ∧
        ((length matching ≤ 500)%nat → rows ≡ₚ matching)) ∧
     ((∀ p x, p ∈ rows → base_score p = Some x →
              Viewer.fits_Int64 x = true) → res = rows) ∧
     (∀ p x, p ∈ rows → base_score p = Some x →
             Viewer.fits_Int64 x = false → res = [])).
Proof.
  intros res. subst res.
  split; [|split; [|split]].
  - unfold Viewer.fetch_cluster_posts.
    destruct (Viewer.connect_db h) as [conn|]; [|simpl; lia].
    unfold Viewer.cluster_posts_query.
    destruct (check_columns conn _) as [[]|e]; simpl; [|lia].
    unfold Viewer.astype_Int64. destruct (forallb _ _); simpl; [|lia].
    rewrite length_take. lia.
  - unfold Viewer.fetch_cluster_posts. by intros ->.
  - unfold Viewer.fetch_cluster_posts. by intros conn e -> ->.
  - intros conn rows Hconn Hq.
    rewrite (fetch_cluster_posts_rows h conn level cluster_id sort_by rows)
      by done.
    cbv zeta. split; [|split].
    + revert Hq. unfold Viewer.cluster_posts_query.
      destruct (check_columns conn _) as [[]|e]; simpl; [|done].
      intros [= <-].
      set (matching := filter _ (fellowship_mvp conn)).
      set (sorted := merge_sort (Viewer.post_order sort_by) matching).
      assert (sorted ≡ₚ matching) as Hperm by apply merge_sort_Permutation.
      assert (StronglySorted (Viewer.post_order sort_by) sorted) as Hsorted
        by apply (StronglySorted_merge_sort _).
      exists sorted. split; [done|]. split; [done|].
      split; [|split; [|split]].
      * intros ->. exact Hsorted.
      * intros Hne. unfold Viewer.post_order, Viewer.post_leb in Hsorted.
        by rewrite bool_decide_eq_false_2 in Hsorted.
      * intros p Hp%subseteq_take. rewrite Hperm in Hp.
        by apply list_elem_of_filter in Hp as [? _].
      * intros Hlen. rewrite take_ge; [done|]. by rewrite Hperm.
    + intros Hfits.
      assert (forallb (from_option Viewer.fits_Int64 true)
                (base_score <$> rows) = true) as ->; [|done].
      apply forallb_forall. intros o Ho%list_elem_of_In.
      apply list_elem_of_fmap in Ho as (p & -> & Hp).
      destruct (base_score p) as [x|] eqn:E; [|done]. by eapply Hfits.
    + intros p x Hp Hx Hfits.
      destruct (forallb _ _) eqn:E; [|done].
      rewrite forallb_forall in E.
      specialize (E (base_score p)). rewrite Hx in E. simpl in E.
      rewrite E in Hfits; [done|].
      apply list_elem_of_In, list_elem_of_fmap. eauto.
Qed.

Lemma fetch_cluster_posts_spec_witness :
  Viewer.fetch_cluster_posts (example_viewer None None None) 5 1 "score" = []
  ∧ Viewer.fetch_cluster_posts
      (example_viewer None None (Some example_db)) 5 1 "score"
    = [mk_post "b" (Some "EA_PROPER") 20 [(5, 1)];
       mk_post "a" (Some "EA_META") 10 [(5, 1)]].
Proof.
  split.
  - refine (proj1 (proj2 (fetch_cluster_posts_spec
                            (example_viewer None None None) 5 1 "score")) _).
    reflexivity.
  - refine (proj1 (proj2 (proj2 (proj2 (proj2 (fetch_cluster_posts_spec
                (example_viewer None None (Some example_db)) 5 1 "score")))
                example_db
                [mk_post "b" (Some "EA_PROPER") 20 [(5, 1)];
                 mk_post "a" (Some "EA_META") 10 [(5, 1)]]
                eq_refl eq_refl)) _).
    intros p x Hp Hx.
    apply elem_of_cons in Hp as [->|Hp];
      [|apply list_elem_of_singleton in Hp as ->];
      injection Hx as <-; reflexivity.
Defined.

Example fetch_example :
  post_id <$>
    Viewer.fetch_cluster_posts
      (example_viewer None None (Some example_db)) 5 1 "score"
  = ["b"; "a"].
Proof. reflexivity. Qed.

(** C7: the code on a table that can be reached and in which the one
    post of cluster 1 at level 5 has the base score 10^30. The
    statement goes through and returns that post, yet
    [fetch_cluster_posts] returns the empty frame: the cast of
    base_score to the nullable 64-bit integer type raises inside the
    [try], and the handler meant for an unreachable database swallows
    it. *)
Theorem fetch_cluster_posts_loses_posts :
  let h := example_viewer None None (Some huge_score_db) in
  Viewer.connect_db h = Some huge_score_db ∧
  (∃ p, Viewer.cluster_posts_query huge_score_db 5 1 "score" = Ok [p] ∧
        p ∈ fellowship_mvp huge_score_db ∧
        ea_cluster p !! 5 = Some 1 ∧
        base_score p = Some (inject_Z (10 ^ 30))) ∧
  Viewer.fetch_cluster_posts h 5 1 "score" = [].
Proof.
  split; [reflexivity|]. split; [|reflexivity].
  eexists. split; [reflexivity|]. split; [left|]. split; reflexivity.
Qed.

(** ** The viewer: an empty level summary *)


Lemma astype_Int64_Ok {A B} (fits : B → bool) (cell : A → option B)
    (df : list A) :
  Viewer.astype_Int64 fits (cell <$> df) = Ok () ↔
  ∀ r x, r ∈ df → cell r = Some x → fits x = true.
Proof.
  unfold Viewer.astype_Int64.
  induction df as [|r df IH]; csimpl.
  { split; [|done]. by intros _ r x ?%elem_of_nil. }
  destruct (cell r) as [x|] eqn:E; simpl.
  - destruct (fits x) eqn:Ex; simpl.
    + rewrite IH. split.
      * intros Hall r' x' [->|Hr']%elem_of_cons; [congruence|by eauto].
      * intros Hall r' x' Hr'. apply Hall. by right.
    + split; [done|]. intros Hall.
      rewrite (Hall r x) in Ex; [done|by left|done].
  - rewrite IH. split.
    + intros Hall r' x' [->|Hr']%elem_of_cons; [congruence|by eauto].
    + intros Hall r' x' Hr'. apply Hall. by right.
Qed.

Lemma all_empty_false {A B} (cell : A → option B) (df : list A) :
  Viewer.all_empty (cell <$> df) = false ↔
  ∃ r, r ∈ df ∧ is_Some (cell r).
Proof.
  unfold Viewer.all_empty. induction df as [|r df IH]; csimpl.
  { split; [done|]. by intros (r & ?%elem_of_nil & _). }
  destruct (cell r) as [x|] eqn:E; simpl.
  - split; [|done]. intros _. exists r. split; [by left|]. by rewrite E.
  - rewrite IH. split.
    + intros (r' & Hr' & Hsome). exists r'. split; [by right|done].
    + intros (r' & [->|Hr']%elem_of_cons & Hsome); [|by eauto].
      rewrite E in Hsome. by destruct Hsome.
Qed.

(** What the table of a level needs of its rows in order not to raise:
    base-score statistics that fit a 64-bit integer, and in each of the
    four statistics columns at least one value. *)
Lemma level_table_Ok df :
  Viewer.level_table df = Ok () ↔
  (∀ r x, r ∈ df → ClusterRow.avg_base_score r = Some x →
          Viewer.fits_Int64 x = true) ∧
  (∀ r x, r ∈ df → ClusterRow.stddev_base_score r = Some x →
          Viewer.root_fits_Int64 x = true) ∧
  (∃ r, r ∈ df ∧ is_Some (ClusterRow.avg_base_score r)) ∧
  (∃ r, r ∈ df ∧ is_Some (ClusterRow.stddev_base_score r)) ∧
  (∃ r, r ∈ df ∧ is_Some (ClusterRow.avg_score r)) ∧
  (∃ r, r ∈ df ∧ is_Some (ClusterRow.stddev_score r)).
Proof.
  rewrite <-(astype_Int64_Ok Viewer.fits_Int64 ClusterRow.avg_base_score),
    <-(astype_Int64_Ok Viewer.root_fits_Int64 ClusterRow.stddev_base_score),
    <-!all_empty_false.
  unfold Viewer.level_table, Viewer.Int64_max_or_zero, Viewer.st_dataframe.
  destruct (Viewer.astype_Int64 Viewer.fits_Int64 _) as [[]|e1];
    [|simpl; split; [done|by intros [? _]]].
  destruct (Viewer.astype_Int64 Viewer.root_fits_Int64 _) as [[]|e2];
    [|simpl; split; [done|by intros (_ & ? & _)]].
  cbn [mbind result_bind].
  destruct (Viewer.all_empty (ClusterRow.avg_base_score <$> df));
    [simpl; split; [done|by intros (_ & _ & ? & _)]|].
  destruct (Viewer.all_empty (ClusterRow.stddev_base_score <$> df));
    [simpl; split; [done|by intros (_ & _ & _ & ? & _)]|].
  cbn [mbind result_bind].
  destruct (Viewer.all_empty (ClusterRow.avg_score <$> df));
    [simpl; split; [done|by intros (_ & _ & _ & _ & ? & _)]|].
  destruct (Viewer.all_empty (ClusterRow.stddev_score <$> df));
    [simpl; split; [done|by intros (_ & _ & _ & _ & _ & ?)]|].
  done.
Qed.

(** The table of a level raises nothing else than these two. *)
Lemma level_table_cases df :
  Viewer.level_table df = Ok () ∨
  ∃ e, Viewer.level_table df = Raise e ∧ table_exn e.
Proof.
  unfold Viewer.level_table, Viewer.astype_Int64, Viewer.Int64_max_or_zero,
    Viewer.st_dataframe, table_exn.
  repeat (destruct (forallb _ _); simpl; eauto).
  repeat (destruct (Viewer.all_empty _); simpl; eauto).
Qed.

(** The sections are rendered to the end exactly when the table of no
    level raises. *)
Lemma level_sections_ending first levels cluster_df :
  ((Viewer.level_sections first levels cluster_df).2 = Viewer.Completed ↔
   ∀ level, level ∈ levels →
     Viewer.level_table
       (filter (λ r, ClusterRow.level r = level) cluster_df) = Ok ()) ∧
  ((Viewer.level_sections first levels cluster_df).2 = Viewer.Completed ∨
   ∃ e, (Viewer.level_sections first levels cluster_df).2 = Viewer.Crashed e
        ∧ table_exn e).
Proof.
  revert first. induction levels as [|level levels IH]; intros first.
  { split; [|by left]. split; [|done]. by intros _ level ?%elem_of_nil. }
  simpl.
  destruct (level_table_cases
              (filter (λ r, ClusterRow.level r = level) cluster_df))
    as [Htable|(e & Htable & He)]; rewrite Htable; simpl.
  - destruct (IH false) as [IH1 IH2]. split; [|done].
    rewrite IH1. split.
    + intros Hall l [->|Hl]%elem_of_cons; auto.
    + intros Hall l Hl. apply Hall. by right.
  - split; [|by eauto]. split; [done|].
    intros Hall. specialize (Hall level ltac:(left)). congruence.
Qed.

(** The same for the levels of a frame, row by row. *)
Lemma frame_sections_ending cluster_df :
  let sections :=
    Viewer.level_sections true
      (merge_sort Z.le (remove_dups (ClusterRow.level <$> cluster_df)))
      cluster_df in
  (sections.2 = Viewer.Completed ↔
   ∀ r, r ∈ cluster_df →
     Viewer.level_table
       (filter (λ r', ClusterRow.level r' = ClusterRow.level r) cluster_df)
     = Ok ()) ∧
  (sections.2 = Viewer.Completed ∨
   ∃ e, sections.2 = Viewer.Crashed e ∧ table_exn e).
Proof.
  intros sections. subst sections.
  destruct (level_sections_ending true
              (merge_sort Z.le (remove_dups (ClusterRow.level <$> cluster_df)))
              cluster_df) as [H1 H2].
  split; [|done]. rewrite H1. split.
  - intros Hall r Hr. apply Hall.
    rewrite merge_sort_Permutation, elem_of_remove_dups, list_elem_of_fmap.
    eauto.
  - intros Hall level.
    rewrite merge_sort_Permutation, elem_of_remove_dups, list_elem_of_fmap.
    intros (r & -> & Hr). by apply Hall.
Qed.




(** A level-summary CSV without any byte is not read as a frame without
    rows: reading it raises, and again no blocking error is shown. *)
Example zero_byte_level_summary :
  Viewer.main
    {| Viewer.secrets := None; Viewer.environ := ∅; Viewer.dotenv := ∅;
       Viewer.HAVE_PSYCOPG2 := true; Viewer.HAVE_PSYCOPG := false;
       Viewer.server := λ _, None;
       Viewer.LEVEL_CSV := "l.csv"; Viewer.CLUSTER_CSV := "c.csv";
       Viewer.level_file := Some []; Viewer.cluster_file := Some [];
       Viewer.level_file_zero_bytes := true;
       Viewer.cluster_file_zero_bytes := false |}
  = (page_head, Viewer.Crashed EmptyDataError).
Proof. reflexivity. Qed.

(** A level whose clusters have base-score statistics and no score
    statistics: the bounds of the two score columns are NaN and showing
    the table raises. *)
Example level_without_scores :
  Viewer.main
    (example_viewer (Some [])
       (Some [{| ClusterRow.level := 5; ClusterRow.cluster_id := 1;
                 ClusterRow.cluster_name := "Cluster 1";
                 ClusterRow.post_count := 2;
                 ClusterRow.meta_posts := Some 1;
                 ClusterRow.proper_posts := Some 1;
                 ClusterRow.avg_base_score := Some (15 # 1);
                 ClusterRow.stddev_base_score := Some (SqrtOf (50 # 1));
                 ClusterRow.avg_score := None;
                 ClusterRow.stddev_score := None |}]) None)
  = (page_head, Viewer.Crashed StreamlitAPIException).
Proof. reflexivity. Qed.

(** ** Runs on the sample hosts *)

Lemma connection_failure_aborts_witness :
  main (example_host None []) (start ∅) = (Raise OperationalError, start ∅).
Proof. apply connection_failure_aborts. reflexivity. Defined.

Lemma filter_does_not_reach_artifacts_witness :
  files (main (example_host (Some example_db)
                 [("EA_CLASSIFICATION_FILTER", "EA_META")]) (start ∅)).2
  = files (main (example_host (Some example_db) []) (start ∅)).2.
Proof.
  apply filter_does_not_reach_artifacts; [reflexivity..|].
  intros name Hne. apply lookup_insert_ne.
  intros Heq. apply Hne. symmetry. exact Heq.
Defined.


Example parse_levels_unset : parse_levels "" = [5; 12; 30; 60].
Proof. reflexivity. Qed.

Example parse_levels_only_commas : parse_levels "," = [].
Proof. reflexivity. Qed.

Example parse_levels_signs : parse_levels "+5,-1, 1_0" = [5; -1; 10].
Proof. reflexivity. Qed.

(** The separator US is white space for [str.strip] and not for [int]:
    an entry made of it alone is passed over, one that ends in it makes
    [int] raise. *)
Example parse_levels_separator :
  parse_levels ("5," +:+ String "031" "" +:+ ",12") = [5; 12] ∧
  Py.int ("7" +:+ String "031" "") = None ∧
  parse_levels ("5,7" +:+ String "031" "" +:+ ",12") = [5; 12; 30; 60].
Proof. split; [|split]; reflexivity. Qed.

(** The run over the example database writes both artifacts; the level
    12, whose column is missing, appears in neither. *)
Example main_example :
  files (main (example_host (Some example_db) [("CLUSTER_LEVELS", "5,12")])
           (start ∅)).2
  = {[ "/srv/ea/cluster_level_summary.csv" :=
         LevelCsv [level_overview_result example_db 5];
       "/srv/ea/cluster_cluster_summary.csv" :=
         ClusterCsv (cluster_details_result example_db 5) ]}.
Proof. vm_compute. reflexivity. Qed.

(** * Further properties of the aggregator *)

(** ** How a run ends *)

Lemma prints_only_for_each_ok {A} (l : list A) (body : A → M unit) :
  (∀ x, prints_only (body x) (Ok ())) → prints_only (for_each l body) (Ok ()).
Proof.
  intros Hbody. induction l as [|x l IH]; [apply prints_only_ret|].
  simpl. by apply prints_only_seq.
Qed.

(** Once the summaries of the report went through, the breakdown by
    classification does not raise. *)
Lemma breakdown_prints conn levels classification_filter :
  summaries_status conn levels = Ok () →
  prints_only
    (let '(has_class, values) := classification_values conn in
     if has_class && negb (opt_truthy classification_filter) then
       print_header "Breakdown by EA Classification";;
       for_each values (λ cls,
         for_each levels (λ level, summarize_level conn level (Some cls)))
     else mret ())
    (Ok ()).
Proof.
  intros Hok. destruct (classification_values conn) as [has_class values].
  destruct (has_class && negb (opt_truthy classification_filter));
    [|apply prints_only_ret].
  apply prints_only_seq; [apply prints_only_header|].
  apply prints_only_for_each_ok. intros cls. rewrite <-Hok.
  apply summaries_print.
Qed.

Lemma main_body_status h conn levels classification_filter s :
  (main_body h conn levels classification_filter s).1 = run_status conn levels.
Proof.
  unfold main_body, run_status, report_status.
  pose proof (meta_vs_proper_prints conn) as H1.
  destruct (if column_exists conn "fellowship_mvp" "ea_classification"
            then meta_vs_proper_query conn;; Ok () else Ok ()) as [[]|e];
    [run_ok H1|by run_raise H1].
  run_ok (prints_only_header "EA Forum Cluster Score Summary").
  pose proof (summaries_print conn levels classification_filter) as H3.
  pose proof (breakdown_prints conn levels classification_filter) as H4.
  cbn [mbind result_bind].
  destruct (summaries_status conn levels) as [[]|e];
    [run_ok H3|by run_raise H3].
  specialize (H4 eq_refl).
  rewrite !log_log. generalize (out ++ out0 ++ out1). clear -H4. intros out.
  cbv zeta. unfold export_level_overview_csv, export_cluster_details_csv.
  unfold mbind at 1, M_bind at 1. unfold mbind at 1, M_bind at 1.
  unfold lift at 1.
  destruct (level_overview_rows conn levels) as [lrows|e]; [|done].
  unfold write_file at 1.
  unfold mbind at 1, M_bind at 1. unfold mbind at 1, M_bind at 1.
  unfold lift at 1.
  destruct (cluster_details_rows conn levels) as [crows|e]; [|done].
  unfold write_file at 1.
  do 3 (match goal with |- context [(print ?l ≫= _) _] =>
          run_ok (prints_only_print l) end).
  match goal with |- (?m ?s').1 = _ => destruct (H4 s') as [o4 ->] end.
  done.
Qed.

Lemma main_status h s :
  (main h s).1 =
    match database h with
    | Some conn =>
        run_status conn (parse_levels (Py.strip (getenv h "CLUSTER_LEVELS")))
    | None => Raise OperationalError
    end.
Proof.
  unfold main, main_with, connect_db. destruct (database h) as [conn|]; [|done].
  unfold mbind, M_bind, set_conn_open, mret, M_ret, finally. simpl.
  match goal with |- context [main_body h conn ?ls ?f ?s1] =>
    pose proof (main_body_status h conn ls f s1) as Hbody;
    destruct (main_body h conn ls f s1) as [r s2]
  end.
  by destruct r.
Qed.

Lemma check_columns_Ok conn cols :
  (∀ c, c ∈ cols → column_exists conn "fellowship_mvp" c = true) →
  check_columns conn cols = Ok ().
Proof.
  induction cols as [|c cols IH]; intros Hall; [done|].
  simpl. rewrite (Hall c) by left. apply IH. intros c' Hc'. apply Hall.
  by right.
Qed.

Lemma summaries_status_Ok conn levels :
  column_exists conn "fellowship_mvp" "base_score" = true →
  summaries_status conn levels = Ok ().
Proof.
  intros Hbase. induction levels as [|level levels IH]; [done|].
  simpl. unfold summarize_status at 1. rewrite check_columns_Ok.
  - by destruct (column_exists conn "fellowship_mvp" (id_col level)).
  - by intros c ->%list_elem_of_singleton.
Qed.

(** X2. A run changes no file other than the two artifacts. *)
Theorem run_touches_only_artifacts h s path :
  path ≠ level_csv_path h → path ≠ cluster_csv_path h →
  files (main h s).2 !! path = files s !! path.
Proof.
  intros Hl Hc. rewrite main_files.
  destruct (database h) as [conn|]; [|done].
  unfold exported. fold (level_csv_path h) (cluster_csv_path h).
  destruct (report_status conn _) as [[]|e]; [|done].
  destruct (level_overview_rows conn _) as [lrows|e]; [|done].
  destruct (cluster_details_rows conn _) as [crows|e];
    by rewrite ?lookup_insert_ne by done.
Qed.

Lemma run_touches_only_artifacts_witness :
  files (main (example_host (Some example_db) [])
           (start {[ "/srv/ea/notes.txt" := LevelCsv [] ]})).2
    !! "/srv/ea/notes.txt"
  = Some (LevelCsv []).
Proof.
  refine (run_touches_only_artifacts (example_host (Some example_db) [])
            (start {[ "/srv/ea/notes.txt" := LevelCsv [] ]})
            "/srv/ea/notes.txt" _ _).
  - discriminate.
  - discriminate.
Defined.

(** X4. Whenever the connection was made the run ends with it closed,
    also when a statement raised in between. *)
Theorem run_closes_connection h s :
  is_Some (database h) → conn_open (main h s).2 = false.
Proof.
  intros [conn Hdb]. unfold main, main_with, connect_db. rewrite Hdb.
  unfold mbind, M_bind, set_conn_open, mret, M_ret, finally. simpl.
  match goal with |- context [main_body h conn ?ls ?f ?s1] =>
    destruct (main_body h conn ls f s1) as [r s2]
  end.
  done.
Qed.

Lemma run_closes_connection_witness :
  conn_open
    (main (example_host
             (Some {| catalog := [("fellowship_mvp", "ea_cluster_5")];
                      fellowship_mvp := [];
                      collation := String.leb |}) [])
       (start ∅)).2
  = false.
Proof. apply run_closes_connection. by eexists. Defined.

(** X6. The exports read ea_classification without probing for it:
    when that column is missing while base_score exists and some
    configured level is supported, the run prints its summaries, then
    raises on the first export and writes nothing. *)
Theorem run_fails_without_classification h conn s :
  database h = Some conn →
  column_exists conn "fellowship_mvp" "ea_classification" = false →
  column_exists conn "fellowship_mvp" "base_score" = true →
  supported conn (parse_levels (Py.strip (getenv h "CLUSTER_LEVELS"))) ≠ [] →
  (main h s).1 = Raise (UndefinedColumn "ea_classification") ∧
  files (main h s).2 = files s ∧
  conn_open (main h s).2 = false.
Proof.
  intros Hdb Hcls Hbase Hsup.
  assert ((main h s).1 = Raise (UndefinedColumn "ea_classification")) as Hst.
  { rewrite main_status, Hdb. unfold run_status, report_status.
    rewrite Hcls, summaries_status_Ok, level_overview_rows_eq by done.
    destruct (supported conn _); [done|].
    unfold export_columns. simpl. by rewrite Hcls. }
  split; [done|]. split.
  - rewrite main_files, Hdb. unfold exported.
    destruct (report_status conn _) as [[]|e]; [|done].
    rewrite level_overview_rows_eq.
    destruct (supported conn _); [done|].
    unfold export_columns. simpl. by rewrite Hcls.
  - unfold main, main_with, connect_db. rewrite Hdb.
    unfold mbind, M_bind, set_conn_open, mret, M_ret, finally. simpl.
    match goal with |- context [main_body h conn ?ls ?f ?s1] =>
      destruct (main_body h conn ls f s1) as [r s2]
    end.
    done.
Qed.

Lemma run_fails_without_classification_witness :
  (main (example_host (Some unlabelled_db) []) (start ∅)).1
  = Raise (UndefinedColumn "ea_classification").
Proof.
  refine (proj1 (run_fails_without_classification
                   (example_host (Some unlabelled_db) []) unlabelled_db
                   (start ∅) _ _ _ _)).
  - reflexivity.
  - reflexivity.
  - reflexivity.
  - discriminate.
Defined.

(** ** What the artifacts hold *)

Lemma group_by_keys {A} `{EqDecision K} (key : A → K) (rows : list A) :
  fst <$> group_by key rows = remove_dups (key <$> rows).
Proof.
  unfold group_by. rewrite <-list_fmap_compose. apply list_fmap_id.
Qed.

Lemma group_by_members {A} `{EqDecision K} (key : A → K) (rows : list A) g :
  g ∈ group_by key rows →
  g.1 ∈ key <$> rows ∧ g.2 = filter (λ r, key r = g.1) rows.
Proof.
  unfold group_by. intros (k & -> & Hk)%list_elem_of_fmap.
  rewrite elem_of_remove_dups in Hk. by split.
Qed.

(** X7. The level-summary artifact holds one row per supported level,
    in the configured order (a level listed twice gives two rows), and
    the post count of a row is the number of posts with a cluster id at
    its level. *)
Theorem level_rows_cover_supported conn levels lrows :
  level_overview_rows conn levels = Ok lrows →
  LevelRow.level <$> lrows = supported conn levels ∧
  ∀ r, r ∈ lrows →
    LevelRow.post_count r =
      Z.of_nat (length (filter (λ p, is_Some (ea_cluster p !! LevelRow.level r))
                          (fellowship_mvp conn))).
Proof.
  intros ->%level_overview_rows_Ok. split.
  - rewrite <-list_fmap_compose. by rewrite list_fmap_id.
  - intros r (L & -> & _)%list_elem_of_fmap. simpl.
    by rewrite assigned_posts.
Qed.

Lemma level_rows_cover_supported_witness :
  LevelRow.level <$> [level_overview_result sparse_db 12;
                      level_overview_result sparse_db 5;
                      level_overview_result sparse_db 12]
  = supported sparse_db [12; 60; 5; 12].
Proof.
  refine (proj1 (level_rows_cover_supported sparse_db [12; 60; 5; 12] _ _)).
  reflexivity.
Defined.

Lemma assigned_cons L p posts :
  assigned L (p :: posts) =
    match ea_cluster p !! L with
    | Some c => (c, p) :: assigned L posts
    | None => assigned L posts
    end.
Proof. unfold assigned. csimpl. by destruct (ea_cluster p !! L). Qed.

Lemma assigned_members L (has_name_col : bool) k posts :
  length (filter (λ q, (q.1, select_name has_name_col L q) = k)
            (assigned L posts))
  = length (filter (λ p, (λ c, (c, select_name has_name_col L (c, p)))
                           <$> ea_cluster p !! L = Some k) posts).
Proof.
  induction posts as [|p posts IH]; [done|].
  rewrite assigned_cons, (filter_cons _ p).
  destruct (ea_cluster p !! L) as [c|]; csimpl.
  - rewrite filter_cons.
    repeat case_decide; simplify_eq/=; first [by rewrite IH | congruence].
  - exact IH.
Qed.

Lemma cluster_result_of_group conn L r :
  r ∈ cluster_details_result conn L →
  ∃ g, g ∈ cluster_groups (column_exists conn "fellowship_mvp" (name_col L)) L
             (assigned L (fellowship_mvp conn)) ∧
       r = cluster_row L g.
Proof.
  unfold cluster_details_result, order_by. rewrite merge_sort_Permutation.
  intros (g & -> & Hg)%list_elem_of_fmap. by exists g.
Qed.

(** X8. Every cluster-summary row counts exactly the posts that have
    its cluster id and its cluster name at its level, and there is at
    least one such post: no row is written for an empty cluster. *)
Theorem cluster_rows_count_members conn levels crows :
  cluster_details_rows conn levels = Ok crows →
  ∀ r, r ∈ crows →
    0 < ClusterRow.post_count r ∧
    ClusterRow.post_count r =
      Z.of_nat (length (filter (row_member conn r) (fellowship_mvp conn))).
Proof.
  intros ->%cluster_details_rows_Ok r (L & Hr & _)%list_elem_of_bind.
  split; [by apply cluster_result_counts in Hr as [? _]|].
  apply cluster_result_of_group in Hr as ([[c n] members] & Hg & ->).
  apply group_by_members in Hg as [_ Hg]. simpl in Hg.
  unfold row_member, cluster_ident. simpl. unfold sql_count.
  rewrite length_fmap, Hg. f_equal.
  apply (assigned_members L _ (c, n)).
Qed.

Lemma cluster_rows_count_members_witness :
  0 < ClusterRow.post_count example_row ∧
  ClusterRow.post_count example_row =
    Z.of_nat (length (filter (row_member example_db example_row)
                        (fellowship_mvp example_db))).
Proof.
  refine (cluster_rows_count_members example_db [5]
            (cluster_details_result example_db 5) _ example_row _).
  - reflexivity.
  - left.
Defined.

(** X9. Within the rows returned for a level, no two rows share both
    cluster id and cluster name, and every post with a cluster id at
    the level is counted in one of the rows. When the level has no name
    column, every row is named Cluster followed by its id and no two
    rows share a cluster id. *)
Theorem cluster_block_partition conn L :
  NoDup (cluster_ident <$> cluster_details_result conn L) ∧
  (∀ p, p ∈ fellowship_mvp conn → is_Some (ea_cluster p !! L) →
     ∃ r, r ∈ cluster_details_result conn L ∧ row_member conn r p) ∧
  (column_exists conn "fellowship_mvp" (name_col L) = false →
     NoDup (ClusterRow.cluster_id <$> cluster_details_result conn L) ∧
     ∀ r, r ∈ cluster_details_result conn L →
       ClusterRow.cluster_name r
       = "Cluster " +:+ pretty (ClusterRow.cluster_id r)).
Proof.
  set (has := column_exists conn "fellowship_mvp" (name_col L)).
  set (key := λ q : Z * Post, (q.1, select_name has L q)).
  assert (cluster_ident <$> cluster_details_result conn L
          ≡ₚ remove_dups (key <$> assigned L (fellowship_mvp conn))) as Hids.
  { unfold cluster_details_result, order_by.
    rewrite merge_sort_Permutation, <-list_fmap_compose.
    unfold cluster_groups. fold has. rewrite <-(group_by_keys key).
    erewrite list_fmap_ext; [reflexivity|]. by intros i [[c n] ms] _. }
  split; [rewrite Hids; apply NoDup_remove_dups|]. split.
  - intros p Hp [c Hc].
    assert (key (c, p) ∈ cluster_ident <$> cluster_details_result conn L)
      as (r & Hr & Hin)%list_elem_of_fmap.
    { rewrite Hids, elem_of_remove_dups. apply list_elem_of_fmap_2.
      apply list_elem_of_omap. exists p. by rewrite Hc. }
    exists r. split; [done|].
    unfold row_member. rewrite (cluster_result_level conn L r Hin).
    fold has. rewrite Hc. simpl. by rewrite <-Hr.
  - intros Hno.
    assert (∀ r, r ∈ cluster_details_result conn L →
              ClusterRow.cluster_name r
              = "Cluster " +:+ pretty (ClusterRow.cluster_id r)) as Hname.
    { intros r ([[c n] ms] & Hg & ->)%cluster_result_of_group.
      apply group_by_members in Hg as [Hk _]. simpl in *.
      apply list_elem_of_fmap in Hk as (q & [= -> ->] & _).
      unfold select_name. fold has. by rewrite Hno. }
    split; [|done].
    apply (NoDup_fmap_1 (λ c, (c, "Cluster " +:+ pretty c))).
    rewrite <-list_fmap_compose.
    assert ((λ c, (c, "Cluster " +:+ pretty c)) ∘ ClusterRow.cluster_id
              <$> cluster_details_result conn L
            = cluster_ident <$> cluster_details_result conn L) as ->.
    { apply list_fmap_ext. intros i r Hr%list_elem_of_lookup_2.
      unfold cluster_ident. simpl. by rewrite Hname. }
    rewrite Hids. apply NoDup_remove_dups.
Qed.

Lemma cluster_block_partition_witness :
  ∃ r, r ∈ cluster_details_result example_db 5 ∧
       row_member example_db r (mk_post "c" (Some "EA_PROPER") 30 [(5, 2)]).
Proof.
  refine (proj1 (proj2 (cluster_block_partition example_db 5))
            (mk_post "c" (Some "EA_PROPER") 30 [(5, 2)]) _ _).
  - right; right; left.
  - by eexists.
Defined.

(** ** The console summary of a level *)

Lemma for_each_print_run {A} (F : A → console_line) (rows : list A) s :
  for_each rows (λ row, print (F row)) s = (Ok (), log s (F <$> rows)).
Proof.
  revert s. induction rows as [|row rows IH]; intros s.
  - simpl. by rewrite log_nil.
  - simpl. unfold mbind, M_bind. change (print (F row) s) with
      (Ok (), log s [F row]).
    cbv beta iota. by rewrite IH, log_log.
Qed.

Lemma print_run l s : print l s = (Ok (), log s [l]).
Proof. done. Qed.

Lemma print_then {A} l (k : () → M A) s :
  (print l ≫= k) s = k () (log s [l]).
Proof. done. Qed.

(** What [summarize_level] prints for a supported level whose statement
    went through: the heading, then the lines of the returned rows. *)
Lemma summarize_level_output conn level classification_filter rows s :
  column_exists conn "fellowship_mvp" (id_col level) = true →
  summary_query conn level
    (if opt_truthy classification_filter
        && column_exists conn "fellowship_mvp" "ea_classification"
     then classification_filter else None) = Ok rows →
  summarize_level conn level classification_filter s
  = (Ok (), log s (summary_heading level classification_filter
                     ++ summary_lines rows)).
Proof.
  intros Hcol Hq. unfold summarize_level. rewrite Hcol, Hq.
  cbn [negb]. cbv iota. unfold summary_heading, summary_lines.
  unfold mbind at 1, M_bind at 1, lift at 1. cbv beta iota zeta.
  rewrite !print_then. cbv beta.
  destruct rows as [|row rows].
  - rewrite print_then, print_run. by rewrite !log_log.
  - unfold mbind at 1, M_bind at 1. rewrite for_each_print_run.
    rewrite print_run. by rewrite !log_log.
Qed.

(** X10. A requested classification only restricts the summary of a
    level when it is non-empty and the ea_classification column exists.
    Otherwise the lines below the heading are those of the unfiltered
    summary; a non-empty label still shows in the heading. *)
Theorem filter_ignored_without_column conn level classification_filter rows s :
  column_exists conn "fellowship_mvp" (id_col level) = true →
  opt_truthy classification_filter
    && column_exists conn "fellowship_mvp" "ea_classification" = false →
  summary_query conn level None = Ok rows →
  summarize_level conn level classification_filter s
  = (Ok (), log s (summary_heading level classification_filter
                     ++ summary_lines rows)) ∧
  summarize_level conn level None s
  = (Ok (), log s (summary_heading level None ++ summary_lines rows)).
Proof.
  intros Hcol Hoff Hq. split.
  - apply summarize_level_output; [done|]. by rewrite Hoff.
  - by apply summarize_level_output.
Qed.

Lemma filter_ignored_without_column_witness :
  stdout (summarize_level unlabelled_db 5 (Some "EA_META") (start ∅)).2
  = [Text "Cluster Level 5  |  EA Classification = EA_META";
     Text "-----------------------------------------------";
     ClusterLine "Cluster 1" 1 (Some (10 # 1)) None;
     Text ""].
Proof.
  rewrite (proj1 (filter_ignored_without_column unlabelled_db 5
                    (Some "EA_META")
                    [{| SummaryRow.cluster_id := 1;
                        SummaryRow.cluster_name := "Cluster 1";
                        SummaryRow.post_count := 1;
                        SummaryRow.avg_base_score := Some (10 # 1);
                        SummaryRow.stddev_base_score := None |}]
                    (start ∅) eq_refl eq_refl eq_refl)).
  reflexivity.
Defined.

Global Instance summary_order_total :
  Total (λ a b, count_desc_id_asc (summary_key a) (summary_key b)).
Proof. intros a b. apply (total count_desc_id_asc). Qed.

Global Instance summary_order_trans :
  Transitive (λ a b, count_desc_id_asc (summary_key a) (summary_key b)).
Proof. intros a b c. apply (transitivity (R := count_desc_id_asc)). Qed.

Lemma assigned_with_label L c posts :
  length (filter (λ r : Z * Post, ea_classification r.2 = Some c)
            (assigned L posts))
  = length (filter (λ p, is_Some (ea_cluster p !! L) ∧
                         ea_classification p = Some c) posts).
Proof.
  induction posts as [|p posts IH]; [done|].
  rewrite assigned_cons, (filter_cons _ p).
  destruct (ea_cluster p !! L) as [k|] eqn:E.
  - rewrite filter_cons. simpl.
    destruct (decide (ea_classification p = Some c)).
    + rewrite decide_True by eauto. simpl. by rewrite IH.
    + rewrite decide_False by tauto. exact IH.
  - rewrite decide_False; [exact IH|]. by intros [[? ?] _].
Qed.

(** X11. The rows that [summarize_level] prints for a level are in
    descending order of post count, ties by ascending cluster id, and
    their post counts add up to the number of posts that have a cluster
    id at the level and, when a label is asked for, carry that label. *)
Theorem summary_rows_add_up conn level wanted rows :
  summary_query conn level wanted = Ok rows →
  StronglySorted
    (λ a b, count_desc_id_asc (summary_key a) (summary_key b)) rows ∧
  sum_Z (SummaryRow.post_count <$> rows) =
    Z.of_nat (length (filter (considered level wanted) (fellowship_mvp conn))).
Proof.
  unfold summary_query.
  destruct (check_columns conn ["base_score"]) as [[]|e]; [|done].
  cbn [mbind result_bind]. intros [= <-]. split.
  - apply (StronglySorted_merge_sort _).
  - unfold order_by. rewrite merge_sort_Permutation, <-list_fmap_compose.
    unfold cluster_groups.
    match goal with |- context [group_by ?key ?pop] =>
      etrans; [|etrans; [apply (group_by_sizes key pop)|]] end.
    + f_equal. apply list_fmap_ext. intros i g _. simpl.
      unfold sql_count. by rewrite length_fmap.
    + f_equal. destruct wanted as [c|].
      * by rewrite assigned_with_label.
      * rewrite <-(length_fmap snd), assigned_posts. f_equal.
        apply filter_ext_in. unfold considered. tauto.
Qed.

Lemma summary_rows_add_up_witness :
  sum_Z (SummaryRow.post_count <$>
           order_by summary_key
             (summary_row <$>
                cluster_groups false 5
                  (filter (λ r : Z * Post,
                             ea_classification r.2 = Some "EA_PROPER")
                     (assigned 5 (fellowship_mvp example_db)))))
  = 2.
Proof.
  refine (proj2 (summary_rows_add_up example_db 5 (Some "EA_PROPER") _ _)).
  reflexivity.
Defined.

(** ** The classification labels *)

(** The order of the bytes, the collation "C", is a total preorder. *)
Lemma String_leb_total a b : String.leb a b = true ∨ String.leb b a = true.
Proof. apply String.leb_total. Qed.

Lemma String_leb_trans a b c :
  String.leb a b = true → String.leb b c = true → String.leb a c = true.
Proof.
  assert (∀ x y, String.leb x y = true ↔
                 x = y ∨ OrderedTypeEx.String_as_OT.lt x y) as Hleb.
  { intros x y. unfold String.leb.
    rewrite <-OrderedTypeEx.String_as_OT.cmp_lt.
    unfold OrderedTypeEx.String_as_OT.cmp.
    destruct (String.compare x y) eqn:E.
    - apply String.compare_eq_iff in E. split; [by left|done].
    - split; [by right|done].
    - split; [done|]. intros [->|?]; [|done].
      assert (String.compare y y = Eq) as Hyy; [|congruence].
      pose proof (String.compare_antisym y y) as Ha.
      destruct (String.compare y y); done. }
  rewrite !Hleb. intros [->|Hab] [->|Hbc]; auto.
  right. by eapply OrderedTypeEx.String_as_OT.lt_trans.
Qed.

(** X12. [classification_values] reports whether the
    ea_classification column exists; when it does, its list holds
    exactly the non-NULL labels that occur in the table, each once, in
    ascending order of the server's collation (a total preorder), and
    when it does not the list is empty. *)
Theorem classification_values_spec conn :
  (classification_values conn).1
    = column_exists conn "fellowship_mvp" "ea_classification" ∧
  (column_exists conn "fellowship_mvp" "ea_classification" = false →
     (classification_values conn).2 = []) ∧
  (column_exists conn "fellowship_mvp" "ea_classification" = true →
     NoDup (classification_values conn).2 ∧
     (∀ c, c ∈ (classification_values conn).2 ↔
           ∃ p, p ∈ fellowship_mvp conn ∧ ea_classification p = Some c) ∧
     ((∀ a b, collation conn a b = true ∨ collation conn b a = true) →
      (∀ a b c, collation conn a b = true → collation conn b c = true →
                collation conn a c = true) →
      StronglySorted (λ a b : string, collation conn a b)
        (classification_values conn).2)).
Proof.
  unfold classification_values.
  destruct (column_exists conn "fellowship_mvp" "ea_classification");
    simpl; (split; [done|]); (split; [done|]); [|done].
  intros _. split; [|split].
  - rewrite merge_sort_Permutation. apply NoDup_remove_dups.
  - intros c.
    rewrite merge_sort_Permutation, elem_of_remove_dups, list_elem_of_omap.
    done.
  - intros Htotal Htrans.
    assert (Total (λ a b : string, Is_true (collation conn a b))) as HT.
    { intros a b. destruct (Htotal a b) as [H|H]; [left|right];
        by apply Is_true_true. }
    assert (Transitive (λ a b : string, Is_true (collation conn a b))) as HR.
    { intros a b c ?%Is_true_true ?%Is_true_true. apply Is_true_true.
      eauto. }
    apply (StronglySorted_merge_sort _).
Qed.

Lemma classification_values_spec_witness :
  (classification_values sparse_db).2 = ["EA_META"; "EA_PROPER"] ∧
  NoDup (classification_values sparse_db).2 ∧
  StronglySorted (λ a b : string, String.leb a b)
    (classification_values sparse_db).2.
Proof.
  split; [reflexivity|]. split.
  - refine (proj1 (proj2 (proj2 (classification_values_spec sparse_db)) _)).
    reflexivity.
  - refine (proj2 (proj2 (proj2 (proj2 (classification_values_spec sparse_db))
                            _)) _ _).
    + reflexivity.
    + exact String_leb_total.
    + exact String_leb_trans.
Defined.

(** * Further properties of the viewer *)

(** ** The database URL *)

(** X13. Where the database URL comes from. A URL found in the
    secrets is returned as it is. When the secrets give none but hold
    an empty top-level DATABASE_URL, the URL is empty whatever the
    environment and the .env file say: reading the secrets has put the
    empty entry over the variable. Otherwise a DATABASE_URL that is set
    in the environment decides, also when it is blank (the .env file
    does not override it), and the .env file is used only when the
    variable is not set at all. *)
Theorem database_url_precedence h :
  (∀ u, Viewer.secrets_url h = Some u → Viewer.get_database_url h = u) ∧
  (Viewer.secrets_url h = None → is_Some (secret_database_url h) →
   Viewer.get_database_url h = "") ∧
  (∀ v, Viewer.secrets_url h = None → secret_database_url h = None →
        Viewer.environ h !! "DATABASE_URL" = Some v →
        Viewer.get_database_url h = Py.strip v) ∧
  (Viewer.secrets_url h = None → secret_database_url h = None →
   Viewer.environ h !! "DATABASE_URL" = None →
   Viewer.get_database_url h
   = Py.strip (default "" (Viewer.dotenv h !! "DATABASE_URL"))).
Proof.
  assert (secret_database_url h = None →
          Viewer.environ_after_secrets h !! "DATABASE_URL"
          = Viewer.environ h !! "DATABASE_URL") as Henv.
  { unfold secret_database_url, Viewer.environ_after_secrets.
    destruct (Viewer.secrets h) as [s|]; [|done]. simpl.
    intros Hs. by rewrite lookup_union_r. }
  unfold Viewer.get_database_url. split; [|split; [|split]].
  - by intros u ->.
  - intros Hurl [v Hv]. rewrite Hurl. cbv zeta.
    assert (Viewer.environ_after_secrets h !! "DATABASE_URL" = Some "")
      as Hempty.
    { revert Hurl Hv.
      unfold Viewer.secrets_url, secret_database_url,
        Viewer.environ_after_secrets, Viewer.present.
      destruct (Viewer.secrets h) as [s|]; [|done]. simpl. intros Hurl Hv.
      apply lookup_union_Some_l. rewrite Hv in Hurl |- *.
      by destruct v. }
    rewrite Hempty. simpl.
    by rewrite (lookup_union_Some_l _ _ _ _ Hempty).
  - intros v -> Hs Hv. cbv zeta. rewrite (Henv Hs), Hv. simpl.
    assert (Viewer.environ_after_secrets h !! "DATABASE_URL" = Some v)
      as Hv' by (by rewrite (Henv Hs)).
    rewrite (lookup_union_Some_l _ _ _ _ Hv'). simpl.
    by destruct (Py.strip v).
  - intros -> Hs Hnone. cbv zeta. rewrite (Henv Hs), Hnone. simpl.
    rewrite lookup_union_r by (by rewrite (Henv Hs)). done.
Qed.

Lemma database_url_precedence_witness :
  Viewer.get_database_url
    {| Viewer.secrets :=
         Some {| Viewer.entries := {["DATABASE_URL" := ""]};
                 Viewer.connections := None |};
       Viewer.environ := {["DATABASE_URL" := "postgresql://ea"]};
       Viewer.dotenv := {["DATABASE_URL" := "postgresql://other"]};
       Viewer.HAVE_PSYCOPG2 := true; Viewer.HAVE_PSYCOPG := false;
       Viewer.server := λ _, Some example_db;
       Viewer.LEVEL_CSV := "l.csv"; Viewer.CLUSTER_CSV := "c.csv";
       Viewer.level_file := None; Viewer.cluster_file := None;
       Viewer.level_file_zero_bytes := false;
       Viewer.cluster_file_zero_bytes := false |}
  = "".
Proof.
  refine (proj1 (proj2 (database_url_precedence _)) _ _).
  - reflexivity.
  - by eexists.
Defined.

(** ** The level sections *)

Lemma level_sections_levels first levels cluster_df :
  (Viewer.level_sections first levels cluster_df).2 = Viewer.Completed →
  omap section_level (Viewer.level_sections first levels cluster_df).1
  = levels.
Proof.
  revert first. induction levels as [|level levels IH]; intros first; [done|].
  simpl. destruct (Viewer.level_table _) as [[]|e]; simpl; [|done].
  intros Hend. rewrite omap_app. destruct first; simpl; by rewrite IH.
Qed.

Lemma level_sections_rows first levels cluster_df level rows :
  Viewer.LevelSection level rows
    ∈ (Viewer.level_sections first levels cluster_df).1 →
  rows = filter (λ r, ClusterRow.level r = level) cluster_df.
Proof.
  revert first. induction levels as [|l levels IH]; intros first;
    [by intros ?%elem_of_nil|].
  assert (Viewer.LevelSection level rows
            ∉ (if first then [] else [Viewer.Divider])) as Hdiv.
  { destruct first; [by intros ?%elem_of_nil|].
    by intros ?%list_elem_of_singleton. }
  simpl. destruct (Viewer.level_table _) as [[]|e]; simpl; [|done].
  rewrite elem_of_app, elem_of_cons.
  intros [He|[[= -> ->]|He]]; [done|done|by eapply IH].
Qed.

(** The sections are all a page shows of levels: neither the head of
    the page nor the overview is one. *)
Lemma main_section_levels h level_df cluster_df :
  Viewer.level_file h = Some level_df →
  Viewer.cluster_file h = Some cluster_df →
  (Viewer.main h).2 = Viewer.Completed →
  omap section_level (Viewer.main h).1
  = merge_sort Z.le (remove_dups (ClusterRow.level <$> cluster_df)) ∧
  ∀ level rows, Viewer.LevelSection level rows ∈ (Viewer.main h).1 →
    rows = filter (λ r, ClusterRow.level r = level) cluster_df.
Proof.
  unfold Viewer.main. intros -> ->.
  destruct (_ || _); [done|].
  destruct level_df as [|r level_df]; simpl.
  - intros Hend. split; [by apply level_sections_levels|].
    intros level rows. rewrite !elem_of_cons.
    intros [?|[?|He]]; [done|done|]. by eapply level_sections_rows.
  - destruct (Viewer.overview r) as [o|e] eqn:Ho; simpl; [|done].
    intros Hend.
    assert (section_level o = None) as Hnone.
    { unfold Viewer.overview in Ho.
      destruct (Viewer.int_cell (LevelRow.meta_posts r)); [|done].
      destruct (Viewer.int_cell (LevelRow.proper_posts r)); [|done].
      by injection Ho as <-. }
    split; [rewrite Hnone; by apply level_sections_levels|].
    intros level rows. rewrite !elem_of_cons.
    intros [?|[?|[<-|He]]]; [done|done|done|].
    by eapply level_sections_rows.
Qed.

(** X14. A page that the viewer renders to the end has one section per
    level that occurs in the cluster-summary CSV, each level once, in
    increasing order whatever the order of the rows in the file, and a
    section holds exactly the rows of its level. *)
Theorem sections_by_level h level_df cluster_df :
  Viewer.level_file h = Some level_df →
  Viewer.cluster_file h = Some cluster_df →
  (Viewer.main h).2 = Viewer.Completed →
  let shown := omap section_level (Viewer.main h).1 in
  NoDup shown ∧ StronglySorted Z.le shown ∧
  (∀ level, level ∈ shown ↔
            ∃ r, r ∈ cluster_df ∧ ClusterRow.level r = level) ∧
  (∀ level rows, Viewer.LevelSection level rows ∈ (Viewer.main h).1 →
     rows = filter (λ r, ClusterRow.level r = level) cluster_df).
Proof.
  intros Hl Hc Hend.
  destruct (main_section_levels h level_df cluster_df Hl Hc Hend)
    as [Hshown Hrows].
  cbv zeta. rewrite Hshown. split; [|split; [|split]].
  - rewrite merge_sort_Permutation. apply NoDup_remove_dups.
  - apply (StronglySorted_merge_sort _).
  - intros level.
    rewrite merge_sort_Permutation, elem_of_remove_dups, list_elem_of_fmap.
    split; intros (r & Hr1 & Hr2); exists r; by split.
  - exact Hrows.
Qed.

Lemma sections_by_level_witness :
  omap section_level
    (Viewer.main
       (example_viewer (Some [])
          (Some (cluster_details_result sparse_db 12
                 ++ cluster_details_result sparse_db 5)) None)).1
  = [5; 12] ∧
  NoDup [5; 12].
Proof.
  split; [reflexivity|].
  refine (proj1 (sections_by_level
                   (example_viewer (Some [])
                      (Some (cluster_details_result sparse_db 12
                             ++ cluster_details_result sparse_db 5)) None)
                   [] _ _ _ _)); reflexivity.
Defined.

(** ** The viewer on the artifacts of a run *)

(** X15. What the viewer shows of the two artifacts that the export
    loops produce. With no supported level both files hold a header
    only and the page is its head. Otherwise the overview is taken from
    the row of the first supported level: when no post has a cluster id
    at that level the label counts of that row are empty and the viewer
    ends with a ValueError before any section; when some post has one,
    the third element of the page is the overview with the totals of
    exactly these posts, and the script then runs to its end exactly
    when the table of no level raises, ending with the exception of
    such a table otherwise. *)
Theorem overview_of_exports conn levels lrows crows h :
  level_overview_rows conn levels = Ok lrows →
  cluster_details_rows conn levels = Ok crows →
  Viewer.level_file h = Some lrows →
  Viewer.cluster_file h = Some crows →
  Viewer.level_file_zero_bytes h = false →
  Viewer.cluster_file_zero_bytes h = false →
  match supported conn levels with
  | [] => Viewer.main h = (page_head, Viewer.Completed)
  | L :: _ =>
      let pop :=
        filter (λ p, is_Some (ea_cluster p !! L)) (fellowship_mvp conn) in
      match pop with
      | [] => Viewer.main h = (page_head, Viewer.Crashed ValueError)
      | _ =>
          (Viewer.main h).1 !! 2%nat =
            Some (Viewer.Overview (Z.of_nat (length pop))
                    (label_count "EA_META" pop)
                    (label_count "EA_PROPER" pop)
                    (sql_avg (base_score <$> pop))
                    (sql_stddev (base_score <$> pop))
                    (sql_avg (score <$> pop))
                    (sql_stddev (score <$> pop))) ∧
          ((Viewer.main h).2 = Viewer.Completed ↔
           ∀ r, r ∈ crows →
             Viewer.level_table
               (filter (λ r', ClusterRow.level r' = ClusterRow.level r) crows)
             = Ok ()) ∧
          ((Viewer.main h).2 = Viewer.Completed ∨
           ∃ e, (Viewer.main h).2 = Viewer.Crashed e ∧ table_exn e)
      end
  end.
Proof.
  intros ->%level_overview_rows_Ok Hcrows Hl Hc Hzl Hzc.
  unfold Viewer.main. rewrite Hl, Hc, Hzl, Hzc. cbn [orb].
  destruct (supported conn levels) as [|L ls] eqn:Hs.
  { apply cluster_details_rows_Ok in Hcrows as ->. by rewrite Hs. }
  clear Hcrows.
  cbn [fmap list_fmap].
  assert (level_overview_result conn L =
            level_overview_row L
              (filter (λ p, is_Some (ea_cluster p !! L)) (fellowship_mvp conn)))
    as -> by (unfold level_overview_result; by rewrite assigned_posts).
  cbv zeta.
  destruct (filter _ (fellowship_mvp conn)) as [|p pop]; [reflexivity|].
  destruct (frame_sections_ending crows) as [Hiff Hcases].
  split; [reflexivity|]. split; [exact Hiff|exact Hcases].
Qed.

Lemma overview_of_exports_witness :
  Viewer.main
    (example_viewer (Some [level_overview_result sparse_db 30])
       (Some (cluster_details_result sparse_db 30)) None)
  = (page_head, Viewer.Crashed ValueError).
Proof.
  refine (overview_of_exports sparse_db [60; 30]
            [level_overview_result sparse_db 30]
            (cluster_details_result sparse_db 30)
            (example_viewer (Some [level_overview_result sparse_db 30])
               (Some (cluster_details_result sparse_db 30)) None)
            _ _ _ _ _ _);
    reflexivity.
Defined.

(** On the artifacts of a table with a single post no cluster has a
    standard deviation: the overview is shown and the table of the
    level raises. *)
Example one_post_table :
  Viewer.main
    (example_viewer (Some [level_overview_result one_post_db 5])
       (Some (cluster_details_result one_post_db 5)) None)
  = (page_head ++
       [Viewer.Overview 1 1 0 (Some (10 # 1)) None (Some (10 # 1)) None],
     Viewer.Crashed TypeError).
Proof. reflexivity. Qed.

(** * Properties of the text helpers *)

(** ** Strings *)

Lemma app_cons c s t : String c s +:+ t = String c (s +:+ t).
Proof. done. Qed.

Lemma app_empty_r s : s +:+ "" = s.
Proof. induction s as [|c s IH]; [done|]. by rewrite app_cons, IH. Qed.

Lemma app_assoc_s s t u : (s +:+ t) +:+ u = s +:+ (t +:+ u).
Proof. induction s as [|c s IH]; [done|]. by rewrite !app_cons, IH. Qed.

Lemma length_app_s s t :
  String.length (s +:+ t) = (String.length s + String.length t)%nat.
Proof. induction s as [|c s IH]; [done|]. rewrite app_cons. simpl. lia. Qed.

Lemma all_chars_app P s t :
  PyText.all_chars P (s +:+ t) = PyText.all_chars P s && PyText.all_chars P t.
Proof.
  induction s as [|c s IH]; [done|].
  rewrite app_cons. simpl. rewrite IH. by destruct (P c).
Qed.

Lemma all_chars_impl (P Q : ascii → bool) s :
  (∀ c, P c = true → Q c = true) →
  PyText.all_chars P s = true → PyText.all_chars Q s = true.
Proof.
  intros HPQ. induction s as [|c s IH]; [done|]. simpl.
  intros [Hc Hs]%andb_true_iff. by rewrite (HPQ c Hc), IH.
Qed.

(** Text without white space is left alone by [strip]. *)
Lemma strip_plain s :
  PyText.all_chars (λ c, negb (Py.is_space c)) s = true → Py.strip s = s.
Proof.
  intros Hs. unfold Py.strip.
  assert (Py.lstrip s = s) as ->.
  { destruct s as [|c s]; [done|]. simpl in *.
    by destruct (Py.is_space c). }
  induction s as [|c s IH]; [done|]. simpl in *.
  apply andb_true_iff in Hs as [Hc Hs]. rewrite IH by done.
  destruct s; [|done]. by destruct (Py.is_space c).
Qed.

(** Nor does [int] skip anything around it when it holds none of its
    white space. *)
Lemma skip_plain sp s :
  PyText.all_chars (λ c, negb (sp c)) s = true →
  Py.skip_trailing sp (Py.skip_leading sp s) = s.
Proof.
  intros Hs.
  assert (Py.skip_leading sp s = s) as ->.
  { destruct s as [|c s]; [done|]. simpl in *.
    by destruct (sp c). }
  induction s as [|c s IH]; [done|]. simpl in *.
  apply andb_true_iff in Hs as [Hc Hs]. rewrite IH by done.
  destruct s; [|done]. by destruct (sp c).
Qed.

(** ** Decimal numerals *)

Lemma digit_of_char d :
  (d < 10)%N → Py.digit_value (pretty_N_char d) = Some (Z.of_N d).
Proof.
  intros Hd.
  assert (d = 0 ∨ d = 1 ∨ d = 2 ∨ d = 3 ∨ d = 4 ∨ d = 5 ∨ d = 6 ∨ d = 7
          ∨ d = 8 ∨ d = 9)%N as Hcases by lia.
  repeat (destruct Hcases as [->|Hcases]; [done|]).
  all: by subst.
Qed.

Lemma pretty_N_go_chars x s :
  PyText.all_chars numeral_char s = true →
  PyText.all_chars numeral_char (pretty_N_go x s) = true.
Proof.
  revert s. induction (N.lt_wf_0 x) as [x _ IH]; intros s Hs.
  assert (x = 0 ∨ 0 < x)%N as [->|Hx] by lia; [done|].
  rewrite pretty_N_go_step by done. apply IH; [by apply N.div_lt|].
  simpl. rewrite Hs. unfold numeral_char.
  by rewrite digit_of_char by (by apply N.mod_lt).
Qed.

(** Reading the digits that [pretty_N_go] writes in front of [s]. *)
Lemma int_digits_go x :
  ∀ s, ∃ k, 0 ≤ k ∧ ∀ acc b,
    (0 < x)%N →
    Py.int_digits acc b (pretty_N_go x s)
    = Py.int_digits (acc * 10 ^ k + Z.of_N x) true s.
Proof.
  induction (N.lt_wf_0 x) as [x _ IH]; intros s.
  assert (x = 0 ∨ 0 < x)%N as [->|Hx] by lia.
  { exists 0. split; [done|]. intros ?? ?. lia. }
  pose proof (N.div_mod x 10 ltac:(done)) as Hdm.
  pose proof (N.mod_lt x 10 ltac:(done)) as Hlt.
  assert (x `div` 10 = 0 ∨ 0 < x `div` 10)%N as [Hq|Hq] by lia.
  - exists 1. split; [done|]. intros acc b _.
    rewrite pretty_N_go_step by done. rewrite Hq, pretty_N_go_0.
    simpl. rewrite digit_of_char by done. f_equal. lia.
  - destruct (IH (x `div` 10)%N ltac:(by apply N.div_lt)
                (String (pretty_N_char (x `mod` 10)) s)) as (k & Hk & Hgo).
    exists (k + 1). split; [lia|]. intros acc b _.
    rewrite pretty_N_go_step by done. rewrite Hgo by done.
    simpl. rewrite digit_of_char by done. f_equal.
    rewrite Z.pow_add_r by lia. lia.
Qed.

Lemma int_digits_pretty_N x :
  Py.int_digits 0 false (pretty x) = Some (Z.of_N x).
Proof.
  unfold pretty, pretty_N. case_decide as Hx; [by subst|].
  destruct (int_digits_go x "") as (k & _ & Hgo).
  rewrite Hgo by lia. simpl. f_equal; lia.
Qed.

Lemma pretty_N_head x s :
  (0 < x)%N → ∃ d s', (d < 10)%N ∧ pretty_N_go x s = String (pretty_N_char d) s'.
Proof.
  revert s. induction (N.lt_wf_0 x) as [x _ IH]; intros s Hx.
  rewrite pretty_N_go_step by done.
  destruct (N.eq_0_gt_0_cases (x `div` 10)) as [Hq|Hq].
  - rewrite Hq, pretty_N_go_0. eexists _, _. split; [|done].
    by apply N.mod_lt.
  - apply IH; [by apply N.div_lt|done].
Qed.

Lemma pretty_Z_chars (z : Z) :
  PyText.all_chars numeral_char (pretty z) = true.
Proof.
  assert (∀ x : N, PyText.all_chars numeral_char (pretty x) = true) as HN.
  { intros x. unfold pretty, pretty_N. case_decide; [done|].
    by apply pretty_N_go_chars. }
  destruct z as [|p|p]; [done|apply (HN (N.pos p))|].
  unfold pretty, pretty_Z. rewrite all_chars_app. simpl.
  apply (HN (N.pos p)).
Qed.

Lemma numeral_char_plain c : numeral_char c = true → negb (Py.is_space c) = true.
Proof.
  unfold numeral_char, Py.digit_value, Py.is_space.
  destruct c as [[] [] [] [] [] [] [] []]; done.
Qed.

Lemma numeral_char_no_int_space c :
  numeral_char c = true → negb (Py.is_int_space c) = true.
Proof.
  unfold numeral_char, Py.digit_value, Py.is_int_space.
  destruct c as [[] [] [] [] [] [] [] []]; done.
Qed.

(** [int] reads back what decimal printing writes. *)
Lemma int_pretty (z : Z) : Py.int (pretty z) = Some z.
Proof.
  unfold Py.int.
  rewrite skip_plain
    by (eapply all_chars_impl;
        [apply numeral_char_no_int_space|apply pretty_Z_chars]).
  destruct z as [|p|p]; [done| |].
  - change (pretty (Z.pos p)) with (pretty (N.pos p)).
    pose proof (int_digits_pretty_N (N.pos p)) as Hint.
    unfold pretty, pretty_N in *. case_decide; [done|].
    destruct (pretty_N_head (N.pos p) "" ltac:(done)) as (d & s' & Hd & Hs).
    rewrite Hs in *.
    assert (d = 0 ∨ d = 1 ∨ d = 2 ∨ d = 3 ∨ d = 4 ∨ d = 5 ∨ d = 6 ∨ d = 7
            ∨ d = 8 ∨ d = 9)%N as Hcases by lia.
    repeat (destruct Hcases as [->|Hcases]; [exact Hint|]).
    all: subst; exact Hint.
  - change (pretty (Z.neg p)) with ("-" +:+ pretty (N.pos p)).
    rewrite app_cons. change ("" +:+ ?s) with s.
    by rewrite (int_digits_pretty_N (N.pos p)).
Qed.

Lemma pretty_nonempty (z : Z) : pretty z ≠ "".
Proof. intros Hz. pose proof (int_pretty z) as Hint. by rewrite Hz in Hint. Qed.

(** ** Splitting and joining *)

Lemma split_go_piece sep x :
  PyText.all_chars (λ c, negb (Ascii.eqb c sep)) x = true →
  ∀ cur,
    Py.split_go sep cur x = [String.rev_app cur x] ∧
    ∀ s, Py.split_go sep cur (x +:+ String sep s)
         = String.rev_app cur x :: Py.split_go sep "" s.
Proof.
  induction x as [|c x IH]; intros Hx cur.
  - split; [done|]. intros s. change ("" +:+ ?t) with t. simpl.
    by rewrite Ascii.eqb_refl.
  - simpl in Hx. apply andb_true_iff in Hx as [Hc Hx].
    apply negb_true_iff in Hc.
    destruct (IH Hx (String c cur)) as [IH1 IH2].
    split; [|intros s; rewrite app_cons]; simpl; rewrite Hc; auto.
Qed.

Lemma split_join sep (pieces : list string) :
  pieces ≠ [] →
  Forall (λ x, PyText.all_chars (λ c, negb (Ascii.eqb c sep)) x = true)
    pieces →
  Py.split sep (PyText.join (String sep "") pieces) = pieces.
Proof.
  intros Hne Hall. unfold Py.split, PyText.join.
  induction Hall as [|x pieces Hx Hall IH]; [done|].
  destruct (split_go_piece sep x Hx "") as [H1 H2].
  destruct pieces as [|y pieces]; [exact H1|].
  change (String.concat (String sep "") (x :: y :: pieces))
    with (x +:+ String sep (String.concat (String sep "") (y :: pieces))).
  rewrite H2, IH by done. done.
Qed.

Lemma mapM_int_pretty (int : string → option Z) (levels : list Z) :
  (∀ z, z ∈ levels → int (pretty z) = Some z) →
  mapM int (pretty <$> levels) = Some levels.
Proof.
  intros Hint. apply mapM_Some.
  induction levels as [|z levels IH]; constructor.
  - apply Hint. by left.
  - apply IH. intros z' Hz'. apply Hint. by right.
Qed.

Lemma join_chars P sep (pieces : list string) :
  PyText.all_chars P sep = true →
  Forall (λ x, PyText.all_chars P x = true) pieces →
  PyText.all_chars P (PyText.join sep pieces) = true.
Proof.
  intros Hsep Hall. unfold PyText.join.
  induction Hall as [|x pieces Hx Hall IH]; [done|].
  destruct pieces as [|y pieces]; [done|].
  change (String.concat sep (x :: y :: pieces))
    with (x +:+ sep +:+ String.concat sep (y :: pieces)).
  by rewrite !all_chars_app, Hx, Hsep, IH.
Qed.

(** X16. A CLUSTER_LEVELS setting written as the decimal numerals of
    a non-empty list of levels, joined by commas, makes the aggregator
    process exactly these levels, in that order and with repetitions
    kept, provided the interpreter's [int] reads each of these numerals
    back (which it does not for a numeral beyond its limit on the
    number of digits: the levels are then the defaults). *)
Theorem parse_levels_round_trip (int : string → option Z) (levels : list Z) :
  levels ≠ [] →
  (∀ z, z ∈ levels → int (pretty z) = Some z) →
  parse_levels_with int (Py.strip (PyText.join "," (pretty <$> levels)))
  = levels.
Proof.
  intros Hne Hint.
  assert (Forall (λ x, PyText.all_chars numeral_char x = true)
            (pretty <$> levels)) as Hnum.
  { apply Forall_fmap, Forall_forall. intros z _. apply pretty_Z_chars. }
  assert (∀ c, numeral_char c = true → negb (Ascii.eqb c ",") = true) as Hcomma.
  { unfold numeral_char, Py.digit_value.
    by intros [[] [] [] [] [] [] [] []]. }
  rewrite strip_plain.
  2:{ apply join_chars; [done|]. eapply Forall_impl; [exact Hnum|].
      intros x. apply all_chars_impl, numeral_char_plain. }
  unfold parse_levels_with.
  rewrite (split_join ",")
    by (first [by destruct levels
              | eapply Forall_impl; [exact Hnum|];
                intros x; apply all_chars_impl, Hcomma]).
  rewrite (filter_all (λ x, Py.truthy (Py.strip x))).
  2:{ intros x (z & -> & _)%list_elem_of_fmap.
      rewrite strip_plain
        by (eapply all_chars_impl;
            [apply numeral_char_plain|apply pretty_Z_chars]).
      pose proof (pretty_nonempty z). by destruct (pretty z). }
  rewrite mapM_int_pretty by done.
  destruct levels as [|z levels]; [done|].
  destruct (PyText.join "," (pretty <$> z :: levels)) eqn:E; [|done].
  exfalso. unfold PyText.join in E. cbn [fmap list_fmap] in E.
  pose proof (pretty_nonempty z) as Hz.
  destruct (pretty <$> levels); simpl in E; [done|].
  destruct (pretty z); [done|discriminate].
Qed.

Lemma parse_levels_round_trip_witness :
  parse_levels_with Py.int
    (Py.strip (PyText.join "," (pretty <$> [30; 5; 5; -1])))
  = [30; 5; 5; -1].
Proof.
  apply parse_levels_round_trip; [discriminate|].
  intros z Hz.
  repeat (apply elem_of_cons in Hz as [->|Hz]; [reflexivity|]).
  by apply elem_of_nil in Hz.
Defined.

(** ** The cluster selector *)

Lemma starts_with_app p s : PyText.starts_with p (p +:+ s) = true.
Proof.
  induction p as [|c p IH]; [done|].
  rewrite app_cons. simpl. by rewrite Ascii.eqb_refl, IH.
Qed.

(** Text in which the first character of the separator does not occur
    is what stands before the separator. *)
Lemma before_app c0 sep' t rest :
  PyText.all_chars (λ c, negb (Ascii.eqb c0 c)) t = true →
  PyText.before (String c0 sep') (t +:+ String c0 sep' +:+ rest) = t.
Proof.
  induction t as [|c t IH]; intros Ht.
  - change ("" +:+ ?s) with s.
    pose proof (starts_with_app (String c0 sep') rest) as Hs.
    destruct (String c0 sep' +:+ rest) as [|c s] eqn:E; [done|].
    cbn [PyText.before]. by rewrite Hs.
  - simpl in Ht. apply andb_true_iff in Ht as [Hc Ht].
    apply negb_true_iff in Hc. rewrite app_cons.
    cbn [PyText.before PyText.starts_with]. rewrite Hc. cbn [andb].
    by rewrite IH.
Qed.

(** X17. The cluster id that the viewer reads back from a selector
    option is the id the option was built from, whatever the cluster
    name, also when the name itself contains the separator; so the
    posts fetched for a selection are those of the selected row. *)
Theorem selected_cluster_id_round_trip (c_id : Z) (name : string) :
  selected_cluster_id (select_option c_id name) = Some c_id.
Proof.
  unfold selected_cluster_id, select_option, OPTION_SEP.
  rewrite before_app; [apply int_pretty|].
  eapply all_chars_impl; [|apply pretty_Z_chars].
  unfold numeral_char, Py.digit_value.
  by intros [[] [] [] [] [] [] [] []].
Qed.

(** ** Column names *)

Lemma app_inj_tail s t u : s +:+ u = t +:+ u → s = t.
Proof.
  revert t. induction s as [|c s IH]; intros [|d t] Heq; [done|..].
  - apply (f_equal String.length) in Heq.
    rewrite !length_app_s in Heq. simpl in Heq. lia.
  - apply (f_equal String.length) in Heq.
    rewrite !length_app_s in Heq. simpl in Heq. lia.
  - rewrite !app_cons in Heq. injection Heq as -> Heq. f_equal. by apply IH.
Qed.

(** X18. Different levels read different columns: the names of the id
    columns of two levels are equal only when the levels are, likewise
    the names of their name columns, and no id column is the name
    column of a level. *)
Theorem level_columns_distinct (L1 L2 : Z) :
  (id_col L1 = id_col L2 → L1 = L2) ∧
  (name_col L1 = name_col L2 → L1 = L2) ∧
  id_col L1 ≠ name_col L2.
Proof.
  unfold name_col, id_col. split; [|split].
  - intros Heq. by apply (inj _), (inj pretty) in Heq.
  - intros Heq%app_inj_tail. by apply (inj _), (inj pretty) in Heq.
  - intros Heq. rewrite app_assoc_s in Heq. apply (inj _) in Heq.
    pose proof (pretty_Z_chars L1) as Hchars.
    rewrite Heq, all_chars_app in Hchars.
    apply andb_true_iff in Hchars as [_ Hchars]. done.
Qed.

(** ** Words *)

Lemma rev_app_chars P s t :
  PyText.all_chars P (String.rev_app s t)
  = PyText.all_chars P s && PyText.all_chars P t.
Proof.
  revert t. induction s as [|c s IH]; intros t; [done|].
  simpl. rewrite IH. simpl.
  destruct (P c), (PyText.all_chars P s), (PyText.all_chars P t); done.
Qed.

Lemma rev_app_truthy s t :
  Py.truthy (String.rev_app s t) = Py.truthy s || Py.truthy t.
Proof.
  revert t. induction s as [|c s IH]; intros t; [done|].
  simpl. rewrite IH. simpl. by rewrite orb_true_r.
Qed.

Lemma split_ws_go_words cur s :
  PyText.all_chars (λ c, negb (Py.is_space c)) cur = true →
  Forall (λ w, is_word w = true) (PyText.split_ws_go cur s).
Proof.
  revert cur. induction s as [|c s IH]; intros cur Hcur.
  - simpl. destruct (Py.truthy cur) eqn:Ht; constructor; [|done].
    unfold is_word, String.rev.
    by rewrite rev_app_truthy, rev_app_chars, Ht, Hcur.
  - simpl. destruct (Py.is_space c) eqn:Hc.
    + destruct (Py.truthy cur) eqn:Ht; [constructor|]; try by apply IH.
      unfold is_word, String.rev.
      by rewrite rev_app_truthy, rev_app_chars, Ht, Hcur.
    + apply IH. simpl. by rewrite Hc, Hcur.
Qed.

Lemma split_ws_words s : Forall (λ w, is_word w = true) (PyText.split_ws s).
Proof. by apply split_ws_go_words. Qed.

Lemma split_ws_go_word x :
  PyText.all_chars (λ c, negb (Py.is_space c)) x = true →
  ∀ cur, Py.truthy (String.rev_app cur x) = true →
    PyText.split_ws_go cur x = [String.rev_app cur x] ∧
    ∀ c s, Py.is_space c = true →
      PyText.split_ws_go cur (x +:+ String c s)
      = String.rev_app cur x :: PyText.split_ws_go "" s.
Proof.
  induction x as [|a x IH]; intros Hx cur Ht.
  - simpl in Ht. rewrite rev_app_truthy, orb_false_r in Ht.
    split; [simpl; by rewrite Ht|].
    intros c s Hc. change ("" +:+ ?t) with t. simpl. by rewrite Hc, Ht.
  - simpl in Hx. apply andb_true_iff in Hx as [Ha Hx].
    apply negb_true_iff in Ha.
    destruct (IH Hx (String a cur) Ht) as [IH1 IH2].
    split; [simpl; by rewrite Ha|].
    intros c s Hc. rewrite app_cons. simpl. rewrite Ha. by apply IH2.
Qed.

Lemma split_ws_line (g : list string) :
  Forall (λ w, is_word w = true) g →
  PyText.split_ws (PyText.join " " g) = g ∧
  ∀ c rest, Py.is_space c = true →
    PyText.split_ws (PyText.join " " g +:+ String c rest)
    = g ++ PyText.split_ws rest.
Proof.
  unfold PyText.split_ws, PyText.join.
  induction 1 as [|w g Hw Hg IH].
  { split; [done|]. intros c rest Hc. change ("" +:+ ?t) with t.
    simpl. by rewrite Hc. }
  apply andb_true_iff in Hw as [Hw1 Hw2].
  destruct (split_ws_go_word w Hw2 "" Hw1) as [H1 H2].
  destruct g as [|w' g].
  - split; [exact H1|]. intros c rest Hc. by apply H2.
  - change (String.concat " " (w :: w' :: g))
      with (w +:+ String " " (String.concat " " (w' :: g))).
    destruct IH as [IH1 IH2]. split.
    + rewrite H2 by done. simpl. f_equal. exact IH1.
    + intros c rest Hc. rewrite app_assoc_s, app_cons.
      rewrite H2 by done. simpl. f_equal. by apply IH2.
Qed.

Lemma split_ws_lines (groups : list (list string)) :
  Forall (Forall (λ w, is_word w = true)) groups →
  PyText.split_ws
    (PyText.join (String "010" "") (PyText.join " " <$> groups))
  = mjoin groups.
Proof.
  induction 1 as [|g groups Hg Hgs IH]; [done|].
  destruct (split_ws_line g Hg) as [H1 H2].
  destruct groups as [|g' groups].
  - cbn [fmap list_fmap mjoin list_join].
    change (PyText.join (String "010" "") [PyText.join " " g])
      with (PyText.join " " g).
    by rewrite H1, app_nil_r.
  - unfold PyText.join at 1. cbn [fmap list_fmap].
    change (String.concat ?sep (?x :: ?y :: ?l))
      with (x +:+ sep +:+ String.concat sep (y :: l)).
    change (String "010" "" +:+ ?t) with (String "010" t).
    rewrite H2 by done. cbn [mjoin list_join]. f_equal. exact IH.
Qed.

(** ** Wrapped labels *)

Lemma wrap_go_groups width words lines cur cur_len :
  wrap_go width words lines cur cur_len
  = lines ++ (PyText.join " " <$> wrap_groups width words cur cur_len).
Proof.
  revert lines cur cur_len.
  induction words as [|w words IH]; intros lines cur cur_len.
  - simpl. destruct cur; [by rewrite app_nil_r|done].
  - cbn [wrap_go wrap_groups].
    destruct (width <? _); rewrite IH; [|done].
    by rewrite <-app_assoc.
Qed.

Lemma wrap_groups_words width words cur cur_len :
  mjoin (wrap_groups width words cur cur_len) = cur ++ words.
Proof.
  revert cur cur_len. induction words as [|w words IH]; intros cur cur_len.
  - simpl. destruct cur; [done|]. simpl. by rewrite !app_nil_r.
  - cbn [wrap_groups]. destruct (width <? _).
    + cbn [mjoin list_join]. by rewrite IH.
    + rewrite IH. by rewrite <-app_assoc.
Qed.

Lemma wrap_lines_groups text width :
  wrap_lines text width
  = PyText.join " " <$> wrap_groups width (PyText.split_ws text) [] 0.
Proof. unfold wrap_lines. by rewrite wrap_go_groups. Qed.

(** X19. Wrapping a label neither loses, adds nor reorders words:
    splitting the wrapped label at white space gives the words of the
    text. *)
Theorem wrap_label_keeps_words text width :
  PyText.split_ws (wrap_label text width) = PyText.split_ws text.
Proof.
  unfold wrap_label. rewrite wrap_lines_groups, split_ws_lines.
  - apply wrap_groups_words.
  - apply Forall_forall. intros g Hg. apply Forall_forall. intros w Hw.
    pose proof (split_ws_words text) as Hwords.
    rewrite Forall_forall in Hwords. apply Hwords.
    rewrite <-(app_nil_l (PyText.split_ws text)).
    rewrite <-(wrap_groups_words width _ [] 0).
    apply list_elem_of_join. eauto.
Qed.

Lemma len_join_nonempty w (g : list string) :
  is_word w = true → 0 < PyText.len (PyText.join " " (w :: g)).
Proof.
  intros [Hw _]%andb_true_iff. unfold PyText.len, PyText.join.
  destruct w as [|c w]; [done|].
  destruct g; simpl; [lia|]. rewrite app_cons. simpl. lia.
Qed.

Lemma len_join_snoc (cur : list string) w :
  PyText.len (PyText.join " " (cur ++ [w]))
  = PyText.len (PyText.join " " cur) + PyText.len w
    + match cur with [] => 0 | _ => 1 end.
Proof.
  unfold PyText.len, PyText.join.
  induction cur as [|x cur IH]; [simpl; lia|].
  destruct cur as [|y cur].
  - simpl. rewrite !length_app_s. simpl. lia.
  - change (String.concat " " ((x :: y :: cur) ++ [w]))
      with (x +:+ " " +:+ String.concat " " ((y :: cur) ++ [w])).
    change (String.concat " " (x :: y :: cur))
      with (x +:+ " " +:+ String.concat " " (y :: cur)).
    rewrite !length_app_s. lia.
Qed.

Lemma wrap_inv_step cur cur_len w :
  wrap_inv cur cur_len → is_word w = true →
  wrap_inv [w] (PyText.len w) ∧
  wrap_inv (cur ++ [w])
    (cur_len + (PyText.len w + if cur_len =? 0 then 0 else 1)) ∧
  cur_len + (PyText.len w + if cur_len =? 0 then 0 else 1)
  = cur_len + PyText.len w + match cur with [] => 0 | _ => 1 end.
Proof.
  intros [Hcur ->] Hw.
  assert ((if PyText.len (PyText.join " " cur) =? 0 then 0 else 1)
          = match cur with [] => 0 | _ => 1 end) as Hsame.
  { destruct cur as [|x cur]; [done|].
    apply Forall_cons in Hcur as [Hx _].
    pose proof (len_join_nonempty x cur Hx).
    destruct (Z.eqb_spec (PyText.len (PyText.join " " (x :: cur))) 0); lia. }
  split; [by split; [constructor|]|]. split; [|lia].
  split; [apply Forall_app; split; [done|by constructor]|].
  rewrite len_join_snoc, Hsame. lia.
Qed.

(** The lines under construction never exceed the width with more than
    one word. *)
Lemma wrap_groups_long width words cur cur_len g :
  Forall (λ w, is_word w = true) words →
  wrap_inv cur cur_len →
  (PyText.len (PyText.join " " cur) ≤ width ∨ (length cur ≤ 1)%nat) →
  g ∈ wrap_groups width words cur cur_len →
  PyText.len (PyText.join " " g) ≤ width ∨ (length g ≤ 1)%nat.
Proof.
  intros Hwords. revert cur cur_len.
  induction Hwords as [|w words Hw Hwords IH]; intros cur cur_len Hinv Hcur.
  - simpl. destruct cur; [by intros ?%elem_of_nil|].
    by intros ->%list_elem_of_singleton.
  - cbn [wrap_groups].
    destruct (wrap_inv_step cur cur_len w Hinv Hw) as (H1 & H2 & H3).
    destruct (Z.ltb_spec width
      (cur_len + PyText.len w + match cur with [] => 0 | _ => 1 end))
      as [Hlt|Hge].
    + intros [->|Hg]%elem_of_cons; [done|].
      apply (IH [w] (PyText.len w)); [done|right; simpl; lia|done].
    + apply IH; [done|]. left. destruct H2 as [_ <-]. lia.
Qed.

(** When every word fits, no line is empty or longer than the width. *)
Lemma wrap_groups_fit width words cur cur_len g :
  Forall (λ w, is_word w = true ∧ PyText.len w ≤ width) words →
  wrap_inv cur cur_len →
  (cur = [] ∨ PyText.len (PyText.join " " cur) ≤ width) →
  g ∈ wrap_groups width words cur cur_len →
  g ≠ [] ∧ PyText.len (PyText.join " " g) ≤ width.
Proof.
  intros Hwords. revert cur cur_len.
  induction Hwords as [|w words [Hw Hfit] Hwords IH];
    intros cur cur_len Hinv Hcur.
  - simpl. destruct cur; [by intros ?%elem_of_nil|].
    intros ->%list_elem_of_singleton. by destruct Hcur.
  - cbn [wrap_groups].
    destruct (wrap_inv_step cur cur_len w Hinv Hw) as (H1 & H2 & H3).
    destruct (Z.ltb_spec width
      (cur_len + PyText.len w + match cur with [] => 0 | _ => 1 end))
      as [Hlt|Hge].
    + intros [->|Hg]%elem_of_cons.
      * destruct Hinv as [_ ->]. destruct cur as [|x cur].
        { change (PyText.len (PyText.join " " [])) with 0 in Hlt. lia. }
        by destruct Hcur.
      * apply (IH [w] (PyText.len w)); [done|by right|done].
    + apply IH; [done|]. right. destruct H2 as [_ <-]. lia.
Qed.

Lemma wrap_group_words text width g w :
  g ∈ wrap_groups width (PyText.split_ws text) [] 0 → w ∈ g →
  w ∈ PyText.split_ws text ∧ is_word w = true.
Proof.
  intros Hg Hw.
  assert (w ∈ PyText.split_ws text) as Hin.
  { rewrite <-(app_nil_l (PyText.split_ws text)).
    rewrite <-(wrap_groups_words width _ [] 0).
    apply list_elem_of_join. eauto. }
  split; [done|].
  pose proof (split_ws_words text) as Hwords.
  rewrite Forall_forall in Hwords. by apply Hwords.
Qed.

(** X20. A line of a wrapped label that is longer than the width
    holds a single word (or is the empty line): words are never broken
    and two words are never put on a line they do not fit on. *)
Theorem wrap_long_line_single_word text width line :
  line ∈ wrap_lines text width →
  width < PyText.len line →
  line = "" ∨ line ∈ PyText.split_ws text.
Proof.
  rewrite wrap_lines_groups. intros (g & -> & Hg)%list_elem_of_fmap Hlong.
  destruct (wrap_groups_long width (PyText.split_ws text) [] 0 g)
    as [Hfit|Hone]; [apply split_ws_words|by split|right; simpl; lia|done|lia|].
  destruct g as [|w [|w' g]]; [by left| |simpl in Hone; lia].
  right. eapply wrap_group_words; [exact Hg|left].
Qed.

Lemma wrap_long_line_single_word_witness :
  "governance" = "" ∨
  "governance" ∈ PyText.split_ws "AI and governance".
Proof.
  refine (wrap_long_line_single_word "AI and governance" 6 "governance" _ _).
  - right; left.
  - reflexivity.
Defined.

(** X21. When no word of the text is longer than the width, no line
    of the wrapped label is longer than the width and none is empty. *)
Theorem wrap_fitting_words text width :
  (∀ w, w ∈ PyText.split_ws text → PyText.len w ≤ width) →
  ∀ line, line ∈ wrap_lines text width →
    line ≠ "" ∧ PyText.len line ≤ width.
Proof.
  intros Hfit line. rewrite wrap_lines_groups.
  intros (g & -> & Hg)%list_elem_of_fmap.
  destruct (wrap_groups_fit width (PyText.split_ws text) [] 0 g)
    as [Hne Hlen]; [|by split|by left|done|].
  { pose proof (split_ws_words text) as Hwords.
    rewrite Forall_forall in Hwords. apply Forall_forall.
    intros w Hw. split; [by apply Hwords|by apply Hfit]. }
  split; [|done]. destruct g as [|w g]; [done|].
  intros Hempty.
  destruct (wrap_group_words text width (w :: g) w Hg) as [_ Hw]; [left|].
  pose proof (len_join_nonempty w g Hw) as Hpos.
  rewrite Hempty in Hpos. by compute in Hpos.
Qed.

Lemma wrap_fitting_words_witness :
  "of frontier" ≠ "" ∧ PyText.len "of frontier" ≤ 12.
Proof.
  refine (wrap_fitting_words "AI safety and governance of frontier models"
            12 _ "of frontier" _).
  - apply Forall_forall. apply (bool_decide_unpack _). vm_compute. exact I.
  - do 3 right. left.
Defined.

Lemma wrap_groups_nonempty width words cur cur_len :
  cur ≠ [] → wrap_groups width words cur cur_len ≠ [].
Proof.
  revert cur cur_len. induction words as [|w words IH]; intros cur cur_len Hne.
  - simpl. by destruct cur.
  - cbn [wrap_groups]. destruct (width <? _); [done|].
    apply IH. by destruct cur.
Qed.

(** X22. When the first word of the text is longer than the width, the
    wrapped label starts with an empty line: the loop closes the line
    it has not yet put a word on. The label then begins with a line
    feed. *)
Theorem wrap_long_first_word text width w ws :
  PyText.split_ws text = w :: ws →
  width < PyText.len w →
  ∃ rest, rest ≠ [] ∧
    wrap_lines text width = "" :: rest ∧
    wrap_label text width
    = String "010" (PyText.join (String "010" "") rest).
Proof.
  intros Hsplit Hlong. unfold wrap_label. rewrite wrap_lines_groups, Hsplit.
  cbn [wrap_groups]. rewrite (proj2 (Z.ltb_lt _ _)) by (simpl; lia).
  cbn [fmap list_fmap].
  pose proof (wrap_groups_nonempty width ws [w] (PyText.len w)) as Hne.
  destruct (wrap_groups width ws [w] (PyText.len w)) as [|g gs];
    [by destruct Hne|].
  eexists. split; [|split; [reflexivity|]]; done.
Qed.

Lemma wrap_long_first_word_witness :
  ∃ rest, rest ≠ [] ∧
    wrap_lines "Supercalifragilistic word" 5 = "" :: rest ∧
    wrap_label "Supercalifragilistic word" 5
    = String "010" (PyText.join (String "010" "") rest).
Proof.
  refine (wrap_long_first_word "Supercalifragilistic word" 5
            "Supercalifragilistic" ["word"] _ _); reflexivity.
Defined.

(** * Further properties across the two programs *)

(** ** A table without base_score *)

Lemma summaries_status_eq conn levels :
  summaries_status conn levels =
    match supported conn levels with
    | [] => Ok ()
    | _ => check_columns conn ["base_score"]
    end.
Proof.
  induction levels as [|level levels IH]; [done|].
  rewrite supported_cons. cbn [summaries_status]. unfold summarize_status.
  rewrite IH. generalize (check_columns conn ["base_score"]). intros c.
  destruct (column_exists conn "fellowship_mvp" (id_col level)),
    (supported conn levels), c as [[]|e]; done.
Qed.

(** X23. On a table without the base_score column a run raises
    UndefinedColumn for base_score and leaves the files untouched as
    soon as the ea_classification column exists or some configured
    level is supported; when neither is the case no statement reads the
    column and the run ends normally. *)
Theorem run_without_base_score h conn s :
  database h = Some conn →
  column_exists conn "fellowship_mvp" "base_score" = false →
  let levels := parse_levels (Py.strip (getenv h "CLUSTER_LEVELS")) in
  (column_exists conn "fellowship_mvp" "ea_classification" = true ∨
   supported conn levels ≠ [] →
     (main h s).1 = Raise (UndefinedColumn "base_score") ∧
     files (main h s).2 = files s) ∧
  (column_exists conn "fellowship_mvp" "ea_classification" = false →
   supported conn levels = [] →
     (main h s).1 = Ok ()).
Proof.
  intros Hdb Hbase levels.
  assert (check_columns conn ["base_score"] = Raise (UndefinedColumn "base_score"))
    as Hcheck by (simpl; by rewrite Hbase).
  split.
  - intros Hcase.
    assert (report_status conn levels = Raise (UndefinedColumn "base_score"))
      as Hreport.
    { unfold report_status, meta_vs_proper_query.
      destruct (column_exists conn "fellowship_mvp" "ea_classification")
        eqn:Hcls.
      - simpl. by rewrite Hbase.
      - destruct Hcase as [|Hsup]; [done|].
        rewrite summaries_status_eq.
        by destruct (supported conn levels). }
    rewrite main_status, main_files, Hdb. fold levels.
    unfold run_status, exported. by rewrite Hreport.
  - intros Hcls Hsup. rewrite main_status, Hdb. fold levels.
    unfold run_status, report_status.
    rewrite Hcls, summaries_status_eq, level_overview_rows_eq,
      cluster_details_rows_eq, Hsup. done.
Qed.

Lemma run_without_base_score_witness :
  (main (example_host
           (Some {| catalog := [("fellowship_mvp", "ea_cluster_5")];
                    fellowship_mvp := [];
                    collation := String.leb |}) [])
     (start ∅)).1
  = Raise (UndefinedColumn "base_score").
Proof.
  refine (proj1 (proj1 (run_without_base_score _ _ _ _ _) _)).
  - reflexivity.
  - reflexivity.
  - right. discriminate.
Defined.

(** ** The drill-down against the table *)

Lemma filtered_group_sizes {A} `{EqDecision K} (key : A → K) (rows : list A)
    (P : K → Prop) `{!∀ k, Decision (P k)} :
  sum_Z ((λ g, Z.of_nat (length g.2))
           <$> filter (λ g, P g.1) (group_by key rows))
  = Z.of_nat (length (filter (λ r, P (key r)) rows)).
Proof.
  rewrite <-(group_by_sizes key (filter (λ r, P (key r)) rows)).
  unfold group_by. rewrite <-!list_fmap_compose.
  generalize (NoDup_remove_dups (key <$> rows)).
  generalize (NoDup_remove_dups (key <$> filter (λ r, P (key r)) rows)).
  intros Hnd1 Hnd2.
  transitivity
    (sum_Z ((λ k, Z.of_nat (length (filter (λ r, key r = k)
                                      (filter (λ r, P (key r)) rows))))
              <$> remove_dups (key <$> rows))).
  - clear Hnd1 Hnd2. induction (remove_dups (key <$> rows)) as [|k ks IH];
      [done|].
    csimpl. rewrite filter_cons. simpl.
    destruct (decide (P k)) as [HP|HP]; csimpl; rewrite IH.
    + assert (filter (λ r, key r = k) (filter (λ r, P (key r)) rows)
              = filter (λ r, key r = k) rows) as ->; [|done].
      rewrite filter_swap. apply filter_all.
      by intros r [-> _]%list_elem_of_filter.
    + rewrite (filter_none (λ r, key r = k)); [done|].
      intros r [HPr _]%list_elem_of_filter Hk. by rewrite Hk in HPr.
  - rewrite (group_sizes key _ _ Hnd2).
    + symmetry. apply (group_sizes key); [done|].
      intros r Hr. apply elem_of_remove_dups, list_elem_of_fmap. eauto.
    + intros r [_ Hr]%list_elem_of_filter.
      apply elem_of_remove_dups, list_elem_of_fmap. eauto.
Qed.

Lemma assigned_with_cluster L c posts :
  length (filter (λ q : Z * Post, q.1 = c) (assigned L posts))
  = length (filter (λ p, ea_cluster p !! L = Some c) posts).
Proof.
  induction posts as [|p posts IH]; [done|].
  rewrite assigned_cons, (filter_cons _ p).
  destruct (ea_cluster p !! L) as [k|].
  - rewrite filter_cons. simpl.
    repeat case_decide; simplify_eq/=; first [by rewrite IH | congruence].
  - rewrite decide_False by done. exact IH.
Qed.

(** X24. The table and the drill-down agree, short of one case: for a
    cluster id of a level, the post counts of the cluster-summary rows
    with that id add up to the number of posts that have this cluster
    id at the level; the drill-down, when its statement goes through
    and the base score of each fetched post can be cast to a 64-bit
    integer, lists that many posts, cut at 500; and when the base score
    of one fetched post cannot be cast it lists none, although the
    cluster has posts. *)
Theorem drilldown_matches_count h conn L c sort_by rows :
  Viewer.connect_db h = Some conn →
  Viewer.cluster_posts_query conn L c sort_by = Ok rows →
  let counted :=
    sum_Z (ClusterRow.post_count
             <$> filter (λ r, ClusterRow.cluster_id r = c)
                   (cluster_details_result conn L)) in
  counted = Z.of_nat (length (filter (λ p, ea_cluster p !! L = Some c)
                                (fellowship_mvp conn))) ∧
  Z.of_nat (length rows) = Z.min 500 counted ∧
  ((∀ p x, p ∈ rows → base_score p = Some x → Viewer.fits_Int64 x = true) →
   Z.of_nat (length (Viewer.fetch_cluster_posts h L c sort_by))
   = Z.min 500 counted) ∧
  (∀ p x, p ∈ rows → base_score p = Some x → Viewer.fits_Int64 x = false →
     Viewer.fetch_cluster_posts h L c sort_by = [] ∧ 0 < counted).
Proof.
  intros Hconn Hq counted.
  assert (counted = Z.of_nat (length (filter (λ p, ea_cluster p !! L = Some c)
                                        (fellowship_mvp conn)))) as Hcount.
  { unfold counted, cluster_details_result, order_by.
    rewrite merge_sort_Permutation.
    set (has := column_exists conn "fellowship_mvp" (name_col L)).
    set (key := λ q : Z * Post, (q.1, select_name has L q)).
    transitivity
      (sum_Z ((λ g : (Z * string) * list (Z * Post), Z.of_nat (length g.2))
                <$> filter (λ g, g.1.1 = c)
                      (group_by key (assigned L (fellowship_mvp conn))))).
    - unfold cluster_groups. fold key.
      induction (group_by key (assigned L (fellowship_mvp conn)))
        as [|g gs IH]; [done|].
      csimpl. rewrite !filter_cons. simpl.
      destruct (decide (g.1.1 = c)); csimpl; rewrite IH; [|done].
      unfold sql_count. by rewrite length_fmap.
    - rewrite <-assigned_with_cluster.
      exact (filtered_group_sizes key _ (λ k, k.1 = c)). }
  assert (Z.of_nat (length rows) = Z.min 500 counted) as Hrows.
  { rewrite Hcount. revert Hq. unfold Viewer.cluster_posts_query.
    destruct (check_columns conn _) as [[]|e]; [|done].
    cbn [mbind result_bind]. intros [= <-].
    rewrite length_take, merge_sort_Permutation. lia. }
  rewrite (fetch_cluster_posts_rows h conn L c sort_by rows) by done.
  split; [done|]. split; [done|]. split.
  - intros Hfits.
    assert (forallb (from_option Viewer.fits_Int64 true)
              (base_score <$> rows) = true) as ->; [|done].
    apply forallb_forall. intros o Ho%list_elem_of_In.
    apply list_elem_of_fmap in Ho as (p & -> & Hp).
    destruct (base_score p) as [x|] eqn:E; [|done]. by eapply Hfits.
  - intros p x Hp Hx Hfits. split.
    + destruct (forallb _ _) eqn:E; [|done].
      rewrite forallb_forall in E.
      specialize (E (base_score p)). rewrite Hx in E. simpl in E.
      rewrite E in Hfits; [done|].
      apply list_elem_of_In, list_elem_of_fmap. eauto.
    + destruct rows as [|r rows]; [by apply elem_of_nil in Hp|].
      simpl in Hrows. lia.
Qed.

Lemma drilldown_matches_count_witness :
  Z.of_nat (length (Viewer.fetch_cluster_posts
                      (example_viewer None None (Some example_db))
                      5 1 "date"))
  = Z.min 500
      (sum_Z (ClusterRow.post_count
                <$> filter (λ r, ClusterRow.cluster_id r = 1)
                      (cluster_details_result example_db 5)))
  ∧ Viewer.fetch_cluster_posts
      (example_viewer None None (Some huge_score_db)) 5 1 "date" = [].
Proof.
  split.
  - refine (proj1 (proj2 (proj2 (drilldown_matches_count
                     (example_viewer None None (Some example_db))
                     example_db 5 1 "date"
                     [mk_post "a" (Some "EA_META") 10 [(5, 1)];
                      mk_post "b" (Some "EA_PROPER") 20 [(5, 1)]] _ _))) _).
    + reflexivity.
    + reflexivity.
    + intros p x Hp Hx.
      apply elem_of_cons in Hp as [->|Hp];
        [|apply list_elem_of_singleton in Hp as ->];
        injection Hx as <-; reflexivity.
  - refine (proj1 (proj2 (proj2 (proj2 (drilldown_matches_count
                     (example_viewer None None (Some huge_score_db))
                     huge_score_db 5 1 "date"
                     [mk_post "a" (Some "EA_META") (10 ^ 30) [(5, 1)]]
                     _ _)))
                   (mk_post "a" (Some "EA_META") (10 ^ 30) [(5, 1)])
                   (inject_Z (10 ^ 30)) _ _ _)).
    + reflexivity.
    + reflexivity.
    + left.
    + reflexivity.
    + reflexivity.
Defined.

Lemma level_columns_distinct_witness : 12 = 12.
Proof.
  refine (proj1 (level_columns_distinct 12 12) _). reflexivity.
Defined.
